(** * ModeFrank: the scripted return-to-launch flight mode

    A shallow embedding of [ArduCopter/mode_frank.cpp] and the properties
    of its phase state machine, waypoint sequencer and return-target
    resolver.

    Conventions of the embedding.
    - [int32_t] and [uint32_t] values are integers of [Z]; arithmetic that
      the source performs on them is followed by [wrap_i32] / [wrap_u32].
    - [float] values are the rationals they denote ([Q]).  Every float
      operation of the source and every conversion of an integer to
      [float] is followed by [round32], the rounding of binary32: to the
      nearest number with a 24-bit significand and an exponent of at
      least -149, ties to the even significand.  Infinities and NaN are
      not represented, so a result beyond the range of binary32 stays
      finite.  A conversion to [int32_t] truncates toward zero and
      wraps where the source leaves the result undefined.
    - The controller's own fields form the record [Mode].  Everything the
      file reaches through [copter], [wp_nav], [pos_control], [auto_yaw],
      [g], ... lives outside this file: it is the class [Vehicle], whose
      carrier [W] is the state of those collaborators.  Queries read [W],
      commands transform it.  The theorems hold for every [Vehicle];
      [Bench] is one on which the controller runs.

    Contents: machine numbers; data; the collaborators; the controller,
    function by function in the order of the source; histories of calls;
    the bench and its scenarios; then the lemmas and theorems. *)

From Stdlib Require Import ZArith QArith Qround Qabs Qpower Qreduction Bool List String Lia Lqa.
Import ListNotations.
Local Open Scope Z_scope.

(** ** Machine numbers *)

Module Num.

Definition INT32_MIN : Z := -2147483648.
Definition INT32_MAX : Z := 2147483647.

Definition wrap_i32 (z : Z) : Z := (z + 2147483648) mod 4294967296 - 2147483648.
Definition wrap_u32 (z : Z) : Z := z mod 4294967296.

Definition in_i32 (z : Z) : Prop := INT32_MIN <= z <= INT32_MAX.

Definition float : Type := Q.

(** *** binary32 *)

Definition pow2 (e : Z) : Q := Qpower 2 e.

(** The exponent of [x]: [pow2 (ilog2 x) <= |x| < pow2 (ilog2 x + 1)]. *)
Definition ilog2 (x : Q) : Z :=
  let e0 := Z.log2 (Z.abs (Qnum x)) - Z.log2 (Z.pos (Qden x)) in
  if Qle_bool (pow2 e0) (Qabs x) then e0 else e0 - 1.

(** The nearest integer, ties to even. *)
Definition rne (y : Q) : Z :=
  let f := Qfloor y in
  match Qcompare (y - inject_Z f) (1 # 2) with
  | Lt => f
  | Gt => f + 1
  | Eq => if Z.even f then f else f + 1
  end.

(** The nearest binary32 number: a multiple of the unit in the last place
    [pow2 q], where [q] leaves 24 bits to the significand and is at least
    the exponent of the subnormal numbers. *)
Definition round32 (x : Q) : float :=
  if Qeq_bool x 0 then 0%Q
  else
    let q := Z.max (ilog2 x - 23) (-149) in
    Qred (inject_Z (rne (x / pow2 q)) * pow2 q).

(** The nearest binary64 number, for the [double] constants of the
    source: a 53-bit significand and exponents from -1074. *)
Definition round64 (x : Q) : Q :=
  if Qeq_bool x 0 then 0%Q
  else
    let q := Z.max (ilog2 x - 52) (-1074) in
    Qred (inject_Z (rne (x / pow2 q)) * pow2 q).

(** The numbers of binary32. *)
Definition representable (r : Q) : Prop :=
  exists m k : Z, Z.abs m <= 2 ^ 24 /\ -149 <= k /\ (r == inject_Z m * pow2 k)%Q.

(** [(float) z], [a * b] and [a - b] on floats. *)
Definition float_of_int (z : Z) : float := round32 (inject_Z z).
Definition fmul (a b : float) : float := round32 (a * b).
Definition fsub (a b : float) : float := round32 (a - b).

(** [(int32_t) f]: the fractional part is discarded. *)
Definition trunc (f : float) : Z := Z.quot (Qnum f) (Z.pos (Qden f)).
Definition int32_of_float (f : float) : Z := wrap_i32 (trunc f).

(** [MAX(a,b)] is [a > b ? a : b] and [MIN(a,b)] is [a < b ? a : b]; with
    one [float] operand both operands are floats. *)
Definition MAX (a b : Z) : Z := if a >? b then a else b.
Definition MIN (a b : Z) : Z := if a <? b then a else b.
Definition fgt (a b : float) : bool := negb (Qle_bool a b).
Definition flt (a b : float) : bool := negb (Qle_bool b a).
Definition fge (a b : float) : bool := Qle_bool b a.
Definition fMAX (a b : float) : float := if fgt a b then a else b.
Definition fMIN (a b : float) : float := if flt a b then a else b.

Definition labs (z : Z) : Z := Z.abs z.

End Num.
Import Num.

(** ** Data *)

(** [Frank_State], the phase of the controller. *)
Inductive Frank_State : Type :=
| Frank_Starting
| Frank_InitialClimb
| Frank_ReturnHome
| Frank_LoiterAtHome
| Frank_FinalDescent
| Frank_Land.

(** [Location::AltFrame]. *)
Inductive AltFrame : Type := ABSOLUTE | ABOVE_HOME | ABOVE_ORIGIN | ABOVE_TERRAIN.

Record Vector3f : Type := mkVector3f { vx : float; vy : float; vz : float }.

Definition Vector3f_of (x y z : Z) : Vector3f :=
  mkVector3f (float_of_int x) (float_of_int y) (float_of_int z).

(** [Location]: the fields this file reads and writes, and the frame that
    [get_alt_frame] reports.  [Location(lat, lng, alt, frame)] is
    [mkLocation]. *)
Record Location : Type := mkLocation {
  lat : Z;
  lng : Z;
  alt : Z;
  alt_frame : AltFrame
}.

Definition with_alt (a : Z) (l : Location) : Location :=
  mkLocation (lat l) (lng l) a (alt_frame l).

(** [rtl_path]. *)
Record RTLPath : Type := mkRTLPath {
  origin_point : Location;
  climb_target : Location;
  return_target : Location;
  descent_target : Location;
  land : bool;
  terrain_used : bool
}.

(** The fields of [ModeFrank].  The class is declared outside this file:
    the two timers hold readings of the 32-bit millisecond clock,
    [mission_index] is an integer, [mission_wp] an array of the fourteen
    waypoints that [build_path] writes. *)
Record Mode : Type := mkMode {
  _state : Frank_State;
  _state_complete : bool;
  terrain_following_allowed : bool;
  start_time_ms : Z;
  _loiter_start_time : Z;
  mission_index : Z;
  mission_completed : bool;
  mission_wp : list Vector3f;
  rtl_path : RTLPath
}.

(** Field updates. *)
Definition set_origin_point (x : Location) (p : RTLPath) : RTLPath :=
  mkRTLPath x (climb_target p) (return_target p) (descent_target p) (land p) (terrain_used p).
Definition set_climb_target (x : Location) (p : RTLPath) : RTLPath :=
  mkRTLPath (origin_point p) x (return_target p) (descent_target p) (land p) (terrain_used p).
Definition set_return_target (x : Location) (p : RTLPath) : RTLPath :=
  mkRTLPath (origin_point p) (climb_target p) x (descent_target p) (land p) (terrain_used p).
Definition set_descent_target (x : Location) (p : RTLPath) : RTLPath :=
  mkRTLPath (origin_point p) (climb_target p) (return_target p) x (land p) (terrain_used p).
Definition set_land (x : bool) (p : RTLPath) : RTLPath :=
  mkRTLPath (origin_point p) (climb_target p) (return_target p) (descent_target p) x (terrain_used p).
Definition set_terrain_used (x : bool) (p : RTLPath) : RTLPath :=
  mkRTLPath (origin_point p) (climb_target p) (return_target p) (descent_target p) (land p) x.

Definition set_state (x : Frank_State) (m : Mode) : Mode :=
  mkMode x (_state_complete m) (terrain_following_allowed m) (start_time_ms m)
         (_loiter_start_time m) (mission_index m) (mission_completed m) (mission_wp m) (rtl_path m).
Definition set_state_complete (x : bool) (m : Mode) : Mode :=
  mkMode (_state m) x (terrain_following_allowed m) (start_time_ms m)
         (_loiter_start_time m) (mission_index m) (mission_completed m) (mission_wp m) (rtl_path m).
Definition set_terrain_following_allowed (x : bool) (m : Mode) : Mode :=
  mkMode (_state m) (_state_complete m) x (start_time_ms m)
         (_loiter_start_time m) (mission_index m) (mission_completed m) (mission_wp m) (rtl_path m).
Definition set_start_time_ms (x : Z) (m : Mode) : Mode :=
  mkMode (_state m) (_state_complete m) (terrain_following_allowed m) x
         (_loiter_start_time m) (mission_index m) (mission_completed m) (mission_wp m) (rtl_path m).
Definition set_loiter_start_time (x : Z) (m : Mode) : Mode :=
  mkMode (_state m) (_state_complete m) (terrain_following_allowed m) (start_time_ms m)
         x (mission_index m) (mission_completed m) (mission_wp m) (rtl_path m).
Definition set_mission_index (x : Z) (m : Mode) : Mode :=
  mkMode (_state m) (_state_complete m) (terrain_following_allowed m) (start_time_ms m)
         (_loiter_start_time m) x (mission_completed m) (mission_wp m) (rtl_path m).
Definition set_mission_completed (x : bool) (m : Mode) : Mode :=
  mkMode (_state m) (_state_complete m) (terrain_following_allowed m) (start_time_ms m)
         (_loiter_start_time m) (mission_index m) x (mission_wp m) (rtl_path m).
Definition set_mission_wp (x : list Vector3f) (m : Mode) : Mode :=
  mkMode (_state m) (_state_complete m) (terrain_following_allowed m) (start_time_ms m)
         (_loiter_start_time m) (mission_index m) (mission_completed m) x (rtl_path m).
Definition set_rtl_path (x : RTLPath) (m : Mode) : Mode :=
  mkMode (_state m) (_state_complete m) (terrain_following_allowed m) (start_time_ms m)
         (_loiter_start_time m) (mission_index m) (mission_completed m) (mission_wp m) x.
Definition upd_rtl_path (f : RTLPath -> RTLPath) (m : Mode) : Mode :=
  set_rtl_path (f (rtl_path m)) m.

(** [mission_wp[i]] and [mission_wp[i] = v] on the fixed array. *)
Definition Vector3f_zero : Vector3f := Vector3f_of 0 0 0.

Definition wp_at (l : list Vector3f) (i : Z) : Vector3f :=
  nth (Z.to_nat i) l Vector3f_zero.

Fixpoint store (l : list Vector3f) (i : nat) (v : Vector3f) : list Vector3f :=
  match l, i with
  | [], _ => []
  | _ :: t, O => v :: t
  | h :: t, S j => h :: store t j v
  end.

(** ** The collaborators *)

Inductive autopilot_yaw_mode : Type :=
| AUTO_YAW_HOLD
| AUTO_YAW_RATE
| AUTO_YAW_RESETTOARMEDYAW
| AUTO_YAW_other.

Inductive LogErrorSubsystem : Type := NAVIGATION | TERRAIN.
Inductive LogErrorCode : Type :=
  RESTARTED_RTL | FAILED_TO_SET_DESTINATION | MISSING_TERRAIN_DATA.
Inductive MAV_SEVERITY : Type := MAV_SEVERITY_CRITICAL.
Inductive ModeNumber : Type := LAND | LOITER | ALT_HOLD.
Inductive ModeReason : Type := TERRAIN_FAILSAFE | THROTTLE_LAND_ESCAPE.
Inductive DesiredSpoolState : Type := THROTTLE_UNLIMITED.
Inductive SpoolState : Type := GROUND_IDLE | SpoolState_other.
Inductive LogEvent : Type := DATA_LAND_CANCELLED_BY_PILOT | DATA_LAND_REPO_ACTIVE.

(** The parameters read through [g]. *)
Record Parameters : Type := mkParameters {
  rtl_speed_cms : Z;
  rtl_climb_min : Z;
  rtl_altitude : Z;
  rtl_cone_slope : float;
  rtl_alt_final : Z;
  rtl_loiter_time : Z;
  throttle_behavior : Z;
  land_repositioning : Z
}.

(** Build configuration and constants that the file uses but does not
    define. *)
Record Config : Type := mkConfig {
  AC_RALLY : bool;
  AC_FENCE : bool;
  RTL_ALT_MIN : Z;
  RTL_ABS_MIN_CLIMB : Z;
  RTL_MIN_CONE_SLOPE : float;
  AC_FENCE_TYPE_ALT_MAX : Z;
  THR_BEHAVE_HIGH_THROTTLE_CANCELS_LAND : Z;
  LAND_CANCEL_TRIGGER_THR : float
}.

(** Calls on a collaborator whose result, if any, the file does not use. *)
Inductive Cmd : Type :=
| wp_and_spline_init
| logger_Write_Error (s : LogErrorSubsystem) (c : LogErrorCode)
| gcs_send_text (sev : MAV_SEVERITY) (text : string)
| wp_set_speed_xy (v : Z)
| wp_set_fast_waypoint (b : bool)
| auto_yaw_set_mode (y : autopilot_yaw_mode)
| auto_yaw_set_rate (r : Z)
| input_euler_angle_roll_pitch_euler_rate_yaw (roll pitch rate : float)
| input_euler_angle_roll_pitch_yaw (roll pitch yaw : float) (slew : bool)
| make_safe_spool_down
| set_desired_spool_state (s : DesiredSpoolState)
| failsafe_terrain_set_status (ok : bool)
| update_z_controller
| console_printf (fmt : string) (arg : Z)
| loiter_init_target_at (v : Vector3f)
| loiter_init_target
| set_target_to_stopping_point_z
| Log_Write_Event (e : LogEvent)
| update_simple_mode
| set_land_repo_active
| set_pilot_desired_acceleration (roll pitch dt : float)
| loiter_update
| set_alt_target_with_slew (a : Z) (dt : float)
| set_alt_target_to_current_alt
| set_desired_velocity_z (v : float)
| arming_disarm
| clear_pilot_desired_acceleration
| land_run_horizontal_control
| land_run_vertical_control.

Class Vehicle (W : Type) : Type := {
  cfg : Config;
  exec : Cmd -> W -> W;
  (* calls whose result is used *)
  wp_set_wp_destination : Vector3f -> W -> bool * W;
  wp_update_wpnav : W -> bool * W;
  copter_set_mode : ModeNumber -> ModeReason -> W -> bool * W;
  (* queries *)
  g : W -> Parameters;
  ahrs_home_is_set : W -> bool;
  ahrs_get_home : W -> Location;
  ahrs_yaw_sensor : W -> Z;
  initial_armed_bearing : W -> Z;
  failsafe_terrain : W -> bool;
  failsafe_radio : W -> bool;
  millis : W -> Z;
  motors_armed : W -> bool;
  motors_get_spool_state : W -> SpoolState;
  is_disarmed_or_landed : W -> bool;
  ap_land_complete : W -> bool;
  ap_land_repo_active : W -> bool;
  current_loc : W -> Location;
  terrain_use : W -> bool;
  rally_calc_best_rally_or_home_location : W -> Location -> Z -> Location;
  fence_get_enabled_fences : W -> Z;
  fence_get_safe_alt_max : W -> float;
  reached_wp_destination : W -> bool;
  wp_get_roll : W -> float;
  wp_get_pitch : W -> float;
  wp_get_wp_destination : W -> Vector3f;
  loiter_get_roll : W -> float;
  loiter_get_pitch : W -> float;
  loiter_get_angle_max_cd : W -> float;
  get_althold_lean_angle_max : W -> float;
  get_stopping_point_xy : W -> Vector3f -> Vector3f;
  get_stopping_point_z : W -> Vector3f -> Vector3f;
  is_active_z : W -> bool;
  inertial_nav_get_velocity_z : W -> float;
  auto_yaw_mode : W -> autopilot_yaw_mode;
  auto_yaw_yaw : W -> float;
  channel_yaw_get_control_in : W -> Z;
  get_pilot_desired_yaw_rate : W -> Z -> float;
  get_pilot_desired_lean_angles : W -> float -> float -> float * float;
  rc_throttle_control_in_filter_get : W -> float;
  G_Dt : W -> float;
  (* pure helpers of the math and location libraries *)
  is_zero : float -> bool;
  wrap_180_cd : Z -> Z;
  Location_of_Vector3f : W -> Vector3f -> Location;
  get_alt_cm : W -> Location -> AltFrame -> option Z;
  change_alt_frame : W -> Location -> AltFrame -> option Location;
  set_alt_cm : Location -> Z -> AltFrame -> Location;
  get_distance : Location -> Location -> float
}.

(** ** The controller *)

Section Controller.

Context {W : Type} {V : Vehicle W}.

(** A computation reads and writes the controller's fields and the
    collaborators' state. *)
Definition M (A : Type) : Type := Mode -> W -> A * Mode * W.

Definition ret {A} (a : A) : M A := fun m w => (a, m, w).
Definition bind {A B} (c : M A) (k : A -> M B) : M B :=
  fun m w => let '(a, m1, w1) := c m w in k a m1 w1.

Notation "x <- c ;; k" := (bind c (fun x => k))
  (at level 61, c at next level, right associativity).
Notation "c ;; k" := (bind c (fun _ => k))
  (at level 61, right associativity).

Definition get : M Mode := fun m w => (m, m, w).
Definition modify (f : Mode -> Mode) : M unit := fun m w => (tt, f m, w).
Definition ask {A} (q : W -> A) : M A := fun m w => (q w, m, w).
Definition call (c : Cmd) : M unit := fun m w => (tt, m, exec c w).
Definition call_r {A} (f : W -> A * W) : M A :=
  fun m w => let '(a, w1) := f w in (a, m, w1).
Definition when (b : bool) (c : M unit) : M unit := if b then c else ret tt.
(** [b && q()] evaluates [q] only when [b] holds. *)
Definition and_then (b : bool) (q : M bool) : M bool := if b then q else ret false.

Definition mode_of {A} (r : A * Mode * W) : Mode := snd (fst r).
Definition world_of {A} (r : A * Mode * W) : W := snd r.
Definition value_of {A} (r : A * Mode * W) : A := fst (fst r).

(** [ModeFrank::init], lines 13-26. *)
Definition init_body : M bool :=
  call wp_and_spline_init ;;
  modify (set_state Frank_Starting) ;;
  modify (set_state_complete true) ;;
  ft <- ask failsafe_terrain ;;
  modify (set_terrain_following_allowed (negb ft)) ;;
  now <- ask millis ;;
  modify (set_start_time_ms now) ;;
  ret true.

Definition init (ignore_checks : bool) : M bool :=
  if negb ignore_checks then
    home <- ask ahrs_home_is_set ;;
    if negb home then ret false else init_body
  else init_body.

(** [ModeFrank::restart_without_terrain], lines 29-37. *)
Definition restart_without_terrain : M unit :=
  call (logger_Write_Error NAVIGATION RESTARTED_RTL) ;;
  m <- get ;;
  if terrain_used (rtl_path m) then
    modify (set_terrain_following_allowed false) ;;
    modify (set_state Frank_Starting) ;;
    modify (set_state_complete true) ;;
    call (gcs_send_text MAV_SEVERITY_CRITICAL "Restarting RTL - Terrain data missing")
  else ret tt.

(** [auto_yaw.set_mode(AUTO_YAW_RATE); auto_yaw.set_rate(r);
    attitude_control->input_euler_angle_roll_pitch_euler_rate_yaw(wp_nav->get_roll(),
    wp_nav->get_pitch(), y)], which three functions repeat. *)
Definition spin_yaw (r : Z) (y : float) : M unit :=
  call (auto_yaw_set_mode AUTO_YAW_RATE) ;;
  call (auto_yaw_set_rate r) ;;
  roll <- ask wp_get_roll ;;
  pitch <- ask wp_get_pitch ;;
  call (input_euler_angle_roll_pitch_euler_rate_yaw roll pitch y).

(** [ModeFrank::climb_start], lines 109-135. *)
Definition climb_start : M unit :=
  modify (set_state Frank_InitialClimb) ;;
  modify (set_state_complete false) ;;
  p <- ask g ;;
  when (negb (rtl_speed_cms p =? 0)) (call (wp_set_speed_xy (rtl_speed_cms p))) ;;
  m <- get ;;
  ok <- call_r (wp_set_wp_destination (wp_at (mission_wp m) 0)) ;;
  if negb ok then
    call (logger_Write_Error NAVIGATION FAILED_TO_SET_DESTINATION) ;;
    _ <- call_r (copter_set_mode LAND TERRAIN_FAILSAFE) ;;
    ret tt
  else
    modify (set_mission_index 0) ;;
    call (wp_set_fast_waypoint true) ;;
    spin_yaw 3600 (float_of_int 360).

(** [ModeFrank::return_start], lines 138-154. *)
Definition return_start : M unit :=
  modify (set_state Frank_ReturnHome) ;;
  modify (set_state_complete false) ;;
  m <- get ;;
  ok <- call_r (wp_set_wp_destination (wp_at (mission_wp m) 12)) ;;
  when (negb ok) restart_without_terrain ;;
  modify (set_mission_index 13) ;;
  spin_yaw 3600 (float_of_int 360).

(** The pilot's yaw input, lines 168-175 and 254-261. *)
Definition pilot_yaw_input : M float :=
  radio <- ask failsafe_radio ;;
  if negb radio then
    c <- ask channel_yaw_get_control_in ;;
    t <- ask (fun w => get_pilot_desired_yaw_rate w c) ;;
    when (negb (is_zero t)) (call (auto_yaw_set_mode AUTO_YAW_HOLD)) ;;
    ret t
  else ret 0%Q.

(** Waypoint, altitude and attitude controllers, lines 177-195 and
    263-281. *)
Definition run_wp_controllers (target_yaw_rate : float) : M unit :=
  call (set_desired_spool_state THROTTLE_UNLIMITED) ;;
  ok <- call_r wp_update_wpnav ;;
  call (failsafe_terrain_set_status ok) ;;
  call update_z_controller ;;
  ym <- ask auto_yaw_mode ;;
  roll <- ask wp_get_roll ;;
  pitch <- ask wp_get_pitch ;;
  match ym with
  | AUTO_YAW_HOLD =>
      call (input_euler_angle_roll_pitch_euler_rate_yaw roll pitch target_yaw_rate)
  | _ =>
      yaw <- ask auto_yaw_yaw ;;
      call (input_euler_angle_roll_pitch_yaw roll pitch yaw true)
  end.

(** Lines 164-195 of [climb_return_run]: the setpoints of the tick. *)
Definition climb_return_setpoints : M unit :=
  spin_yaw 360 (float_of_int 3600) ;;
  t <- pilot_yaw_input ;;
  run_wp_controllers t.

(** Lines 198-218 of [climb_return_run]: the waypoint sequencer. *)
Definition waypoint_sequencer : M unit :=
  m <- get ;;
  c1 <- and_then (mission_index m <? 13) (ask reached_wp_destination) ;;
  if c1 then
    modify (set_mission_index (mission_index m + 1)) ;;
    m1 <- get ;;
    _ <- call_r (wp_set_wp_destination (wp_at (mission_wp m1) (mission_index m1))) ;;
    call (console_printf "Mission Index: %d\n" (mission_index m1))
  else
    c2 <- and_then (mission_index m >=? 13) (ask reached_wp_destination) ;;
    if c2 then
      now <- ask millis ;;
      if wrap_u32 (now - start_time_ms m) >? 180000 then
        modify (set_mission_completed true)
      else
        now' <- ask millis ;;
        call (console_printf "spinning, time is %d\n" (wrap_u32 (now' - start_time_ms m)))
    else ret tt.

(** Line 221 of [climb_return_run]. *)
Definition check_stage_complete : M unit :=
  r <- ask reached_wp_destination ;;
  m <- get ;;
  modify (set_state_complete (r && mission_completed m)).

(** [ModeFrank::climb_return_run], lines 158-222. *)
Definition climb_return_run : M unit :=
  d <- ask is_disarmed_or_landed ;;
  if d then call make_safe_spool_down
  else
    climb_return_setpoints ;;
    waypoint_sequencer ;;
    check_stage_complete.

(** [ModeFrank::loiterathome_start], lines 225-237. *)
Definition loiterathome_start : M unit :=
  modify (set_state Frank_LoiterAtHome) ;;
  modify (set_state_complete false) ;;
  now <- ask millis ;;
  modify (set_loiter_start_time now).

(** [ModeFrank::loiterathome_run], lines 241-295. *)
Definition loiterathome_run : M unit :=
  d <- ask is_disarmed_or_landed ;;
  if d then call make_safe_spool_down
  else
    t <- pilot_yaw_input ;;
    run_wp_controllers t ;;
    now <- ask millis ;;
    p <- ask g ;;
    m <- get ;;
    if wrap_u32 (now - _loiter_start_time m) >=? wrap_u32 (rtl_loiter_time p) then
      ym <- ask auto_yaw_mode ;;
      match ym with
      | AUTO_YAW_RESETTOARMEDYAW =>
          ys <- ask ahrs_yaw_sensor ;;
          ab <- ask initial_armed_bearing ;;
          when (Z.abs (wrap_180_cd (wrap_i32 (ys - ab))) <=? 200)
               (modify (set_state_complete true))
      | _ => modify (set_state_complete true)
      end
    else ret tt.

(** [ModeFrank::descent_start], lines 298-310. *)
Definition descent_start : M unit :=
  modify (set_state Frank_FinalDescent) ;;
  modify (set_state_complete false) ;;
  d <- ask wp_get_wp_destination ;;
  call (loiter_init_target_at d) ;;
  call set_target_to_stopping_point_z ;;
  call (auto_yaw_set_mode AUTO_YAW_HOLD).

(** The pilot's input during the descent, lines 329-358; the result is
    [(target_roll, target_pitch, target_yaw_rate)]. *)
Definition descent_pilot_input : M (float * float * float) :=
  radio <- ask failsafe_radio ;;
  if negb radio then
    p <- ask g ;;
    thr <- ask rc_throttle_control_in_filter_get ;;
    when (negb (Z.land (throttle_behavior p) (THR_BEHAVE_HIGH_THROTTLE_CANCELS_LAND cfg) =? 0)
          && fgt thr (LAND_CANCEL_TRIGGER_THR cfg))
      (call (Log_Write_Event DATA_LAND_CANCELLED_BY_PILOT) ;;
       ok <- call_r (copter_set_mode LOITER THROTTLE_LAND_ESCAPE) ;;
       if negb ok then
         _ <- call_r (copter_set_mode ALT_HOLD THROTTLE_LAND_ESCAPE) ;; ret tt
       else ret tt) ;;
    p' <- ask g ;;
    rp <- (if negb (land_repositioning p' =? 0) then
             call update_simple_mode ;;
             amax <- ask loiter_get_angle_max_cd ;;
             lmax <- ask get_althold_lean_angle_max ;;
             rp <- ask (fun w => get_pilot_desired_lean_angles w amax lmax) ;;
             when (negb (is_zero (fst rp)) || negb (is_zero (snd rp)))
               (active <- ask ap_land_repo_active ;;
                when (negb active) (call (Log_Write_Event DATA_LAND_REPO_ACTIVE)) ;;
                call set_land_repo_active) ;;
             ret rp
           else ret (0%Q, 0%Q)) ;;
    c <- ask channel_yaw_get_control_in ;;
    t <- ask (fun w => get_pilot_desired_yaw_rate w c) ;;
    ret (fst rp, snd rp, t)
  else ret (0%Q, 0%Q, 0%Q).

(** [ModeFrank::descent_run], lines 314-379. *)
Definition descent_run : M unit :=
  d <- ask is_disarmed_or_landed ;;
  if d then call make_safe_spool_down
  else
    inp <- descent_pilot_input ;;
    let '(target_roll, target_pitch, target_yaw_rate) := inp in
    call (set_desired_spool_state THROTTLE_UNLIMITED) ;;
    dt <- ask G_Dt ;;
    call (set_pilot_desired_acceleration target_roll target_pitch dt) ;;
    call loiter_update ;;
    m <- get ;;
    dt' <- ask G_Dt ;;
    call (set_alt_target_with_slew (alt (descent_target (rtl_path m))) dt') ;;
    call update_z_controller ;;
    roll <- ask loiter_get_roll ;;
    pitch <- ask loiter_get_pitch ;;
    call (input_euler_angle_roll_pitch_euler_rate_yaw roll pitch target_yaw_rate) ;;
    cur <- ask current_loc ;;
    modify (set_state_complete
              (labs (wrap_i32 (alt (descent_target (rtl_path m)) - alt cur)) <? 20)).

(** [ModeFrank::land_start], lines 382-397. *)
Definition land_start : M unit :=
  modify (set_state Frank_Land) ;;
  modify (set_state_complete false) ;;
  d <- ask wp_get_wp_destination ;;
  call (loiter_init_target_at d) ;;
  active <- ask is_active_z ;;
  when (negb active)
    (call set_alt_target_to_current_alt ;;
     v <- ask inertial_nav_get_velocity_z ;;
     call (set_desired_velocity_z v)) ;;
  call (auto_yaw_set_mode AUTO_YAW_HOLD).

(** [ModeFrank::is_landing] and [landing_gear_should_be_deployed],
    lines 399-413. *)
Definition is_landing (m : Mode) : bool :=
  match _state m with Frank_Land => true | _ => false end.

Definition landing_gear_should_be_deployed (m : Mode) : bool :=
  match _state m with
  | Frank_LoiterAtHome | Frank_Land | Frank_FinalDescent => true
  | _ => false
  end.

(** [ModeFrank::land_run], lines 417-442. *)
Definition land_run (disarm_on_land : bool) : M unit :=
  lc <- ask ap_land_complete ;;
  modify (set_state_complete lc) ;;
  lc' <- ask ap_land_complete ;;
  sp <- ask motors_get_spool_state ;;
  when (lc' && match sp with GROUND_IDLE => true | _ => false end) (call arming_disarm) ;;
  d <- ask is_disarmed_or_landed ;;
  if d then
    call make_safe_spool_down ;;
    call clear_pilot_desired_acceleration ;;
    call loiter_init_target
  else
    call (set_desired_spool_state THROTTLE_UNLIMITED) ;;
    call land_run_horizontal_control ;;
    call land_run_vertical_control.

(** *** The return target *)

(** Lines 528-532 of [compute_return_target]: the return altitude, floored
    at zero, is raised to the current altitude plus the minimum climb and
    to the RTL altitude. *)
Definition raise_target_alt (p : Parameters) (return_alt curr_alt : Z) : Z :=
  let target_alt := MAX return_alt 0 in
  let target_alt := MAX target_alt (wrap_i32 (curr_alt + MAX 0 (rtl_climb_min p))) in
  MAX target_alt (MAX (rtl_altitude p) (RTL_ALT_MIN cfg)).

(** Lines 537-540: the cone around the return target. *)
Definition cone_slope_clamp (p : Parameters) (rtl_return_dist_cm : float)
    (curr_alt target_alt : Z) : Z :=
  if fge (rtl_cone_slope p) (RTL_MIN_CONE_SLOPE cfg) then
    int32_of_float
      (fMAX (float_of_int curr_alt)
         (fMIN (float_of_int target_alt)
            (fMAX (fmul rtl_return_dist_cm (rtl_cone_slope p))
                  (float_of_int (wrap_i32 (curr_alt + RTL_ABS_MIN_CLIMB cfg))))))
  else target_alt.

(** Line 558: [rtl_path.return_target.alt -= (target_alt - fence_alt)].
    Both integers are converted to [float], both subtractions are float
    subtractions, and the result is converted back to [int32_t]. *)
Definition reduce_to_fence (a target_alt : Z) (fence_alt : float) : Z :=
  int32_of_float (fsub (float_of_int a) (fsub (float_of_int target_alt) fence_alt)).

(** Lines 546-562: the return target is kept below the altitude fence. *)
Definition fence_clamp : M unit :=
  when (AC_FENCE cfg)
    (fences <- ask fence_get_enabled_fences ;;
     when (negb (Z.land fences (AC_FENCE_TYPE_ALT_MAX cfg) =? 0))
       (m <- get ;;
        r <- ask (fun w => get_alt_cm w (return_target (rtl_path m)) ABOVE_HOME) ;;
        match r with
        | Some target_alt =>
            top <- ask fence_get_safe_alt_max ;;
            let fence_alt := fmul top 100%Q in
            when (fgt (float_of_int target_alt) fence_alt)
              (modify (upd_rtl_path (fun p =>
                 set_return_target
                   (with_alt (reduce_to_fence (alt (return_target p)) target_alt fence_alt)
                             (return_target p)) p)))
        | None => ret tt
        end)).

Definition terrain_data_missing : M unit :=
  modify (upd_rtl_path (set_terrain_used false)) ;;
  call (logger_Write_Error TERRAIN MISSING_TERRAIN_DATA).

(** Lines 505-514: the three terrain lookups; the result is [curr_alt]. *)
Definition terrain_lookups (curr_alt : Z) : M Z :=
  m <- get ;;
  if terrain_used (rtl_path m) then
    o <- ask (fun w => get_alt_cm w (origin_point (rtl_path m)) ABOVE_TERRAIN) ;;
    match o with
    | None => terrain_data_missing ;; ret curr_alt
    | Some _ =>
        r <- ask (fun w => get_alt_cm w (return_target (rtl_path m)) ABOVE_TERRAIN) ;;
        match r with
        | None => terrain_data_missing ;; ret curr_alt
        | Some _ =>
            c <- ask (fun w => get_alt_cm w (current_loc w) ABOVE_TERRAIN) ;;
            match c with
            | None => terrain_data_missing ;; ret curr_alt
            | Some a => ret a
            end
        end
    end
  else ret curr_alt.

(** [rtl_path.return_target.change_alt_frame(f)]: the result tells whether
    the frame was changed. *)
Definition return_target_change_alt_frame (f : AltFrame) : M bool :=
  m <- get ;;
  r <- ask (fun w => change_alt_frame w (return_target (rtl_path m)) f) ;;
  match r with
  | Some l => modify (upd_rtl_path (set_return_target l)) ;; ret true
  | None => ret false
  end.

(** Lines 517-523. *)
Definition convert_return_target_frame : M unit :=
  m <- get ;;
  ok <- and_then (terrain_used (rtl_path m)) (return_target_change_alt_frame ABOVE_TERRAIN) ;;
  if negb ok then
    ok' <- return_target_change_alt_frame ABOVE_HOME ;;
    when (negb ok')
      (modify (upd_rtl_path (fun p =>
         set_return_target (set_alt_cm (return_target p) 0 ABOVE_HOME) p))) ;;
    modify (upd_rtl_path (set_terrain_used false))
  else ret tt.

(** Lines 493-562 of [compute_return_target]: everything up to the fence. *)
Definition resolve_return_target : M unit :=
  rt <- ask (fun w =>
         if AC_RALLY cfg
         then rally_calc_best_rally_or_home_location w (current_loc w) (alt (ahrs_get_home w))
         else ahrs_get_home w) ;;
  modify (upd_rtl_path (set_return_target rt)) ;;
  cur <- ask current_loc ;;
  use <- ask terrain_use ;;
  m <- get ;;
  modify (upd_rtl_path (set_terrain_used (use && terrain_following_allowed m))) ;;
  curr_alt <- terrain_lookups (alt cur) ;;
  convert_return_target_frame ;;
  p <- ask g ;;
  m1 <- get ;;
  let path := rtl_path m1 in
  let target_alt := raise_target_alt p (alt (return_target path)) curr_alt in
  let rtl_return_dist_cm :=
    fmul (get_distance (return_target path) (origin_point path)) 100%Q in
  let target_alt := cone_slope_clamp p rtl_return_dist_cm curr_alt target_alt in
  modify (upd_rtl_path (fun q =>
    set_return_target
      (set_alt_cm (return_target q) target_alt
         (if terrain_used q then ABOVE_TERRAIN else ABOVE_HOME)) q)) ;;
  fence_clamp.

(** [ModeFrank::compute_return_target], lines 492-567. *)
Definition compute_return_target : M unit :=
  resolve_return_target ;;
  modify (upd_rtl_path (fun p => set_return_target (with_alt 700 (return_target p)) p)).

(** *** The path *)

(** The scripted mission, lines 464-477, as the stores are written. *)
Definition mission_script : list (nat * Vector3f) :=
  [ (0%nat, Vector3f_of 0 0 200);
    (1%nat, Vector3f_of 500 0 200);
    (2%nat, Vector3f_of 0 0 700);
    (3%nat, Vector3f_of 0 0 200);
    (4%nat, Vector3f_of 300 0 500);
    (5%nat, Vector3f_of 0 0 800);
    (6%nat, Vector3f_of (-300) 0 500);
    (7%nat, Vector3f_of 0 0 200);
    (8%nat, Vector3f_of 0 0 200);
    (9%nat, Vector3f_of 0 0 200);
    (10%nat, Vector3f_of 0 0 200);
    (11%nat, Vector3f_of 0 0 200);
    (12%nat, Vector3f_of 0 0 200);
    (13%nat, Vector3f_of 0 0 200) ].

Definition write_mission (l : list Vector3f) : list Vector3f :=
  fold_left (fun a iv => store a (fst iv) (snd iv)) mission_script l.

(** [float forward_const = 5 * 90.0000900001]: a product of [double]s,
    rounded to [float] by the initialisation. *)
Definition forward_const : float :=
  round32 (round64 (5 * round64 (900000900001 # 10000000000))).

(** [ModeFrank::build_path], lines 444-487. *)
Definition build_path : M unit :=
  sp <- ask (fun w => get_stopping_point_z w (get_stopping_point_xy w Vector3f_zero)) ;;
  origin <- ask (fun w => Location_of_Vector3f w sp) ;;
  modify (upd_rtl_path (set_origin_point origin)) ;;
  r <- ask (fun w => change_alt_frame w origin ABOVE_HOME) ;;
  match r with
  | Some l => modify (upd_rtl_path (set_origin_point l))
  | None => ret tt
  end ;;
  compute_return_target ;;
  let climb_altitude := 200 in
  modify (upd_rtl_path (fun p =>
    let forward := wrap_i32 (int32_of_float forward_const + lat (origin_point p)) in
    set_climb_target
      (mkLocation forward (lng (origin_point p)) climb_altitude
                  (alt_frame (return_target p))) p)) ;;
  modify (fun m => set_mission_wp (write_mission (mission_wp m)) m) ;;
  modify (upd_rtl_path (fun p =>
    set_descent_target
      (mkLocation (lat (return_target p)) (lng (return_target p)) 700 ABOVE_HOME) p)) ;;
  p <- ask g ;;
  modify (upd_rtl_path (set_land (rtl_alt_final p <=? 0))).

(** *** The phase state machine *)

(** Lines 48-74 of [run]: entry into the next phase. *)
Definition next_phase : M unit :=
  m <- get ;;
  if _state_complete m then
    match _state m with
    | Frank_Starting => build_path ;; climb_start
    | Frank_InitialClimb => return_start
    | Frank_ReturnHome => loiterathome_start
    | Frank_LoiterAtHome =>
        radio <- ask failsafe_radio ;;
        if land (rtl_path m) || radio then land_start else descent_start
    | Frank_FinalDescent => ret tt
    | Frank_Land => ret tt
    end
  else ret tt.

(** Lines 77-104 of [run]: the behaviour of the current phase. *)
Definition run_phase (disarm_on_land : bool) : M unit :=
  m <- get ;;
  match _state m with
  | Frank_Starting => modify (set_state Frank_InitialClimb) ;; climb_return_run
  | Frank_InitialClimb => climb_return_run
  | Frank_ReturnHome => climb_return_run
  | Frank_LoiterAtHome => loiterathome_run
  | Frank_FinalDescent => descent_run
  | Frank_Land => land_run disarm_on_land
  end.

(** [ModeFrank::run], lines 41-105. *)
Definition run (disarm_on_land : bool) : M unit :=
  armed <- ask motors_armed ;;
  if negb armed then ret tt
  else next_phase ;; run_phase disarm_on_land.

End Controller.

Arguments M W : clear implicits.

(** ** Operations of the controller

    The mode-dispatch framework calls [init], [restart_without_terrain]
    and [run].  Between two calls the collaborators evolve on their own,
    so each call of a history comes with the state [W] it finds. *)

Inductive Op : Type :=
| OpInit (ignore_checks : bool)
| OpRestartWithoutTerrain
| OpRun (disarm_on_land : bool).

Section Histories.

Context {W : Type} {V : Vehicle W}.

Definition step (m : Mode) (x : Op * W) : Mode :=
  match fst x with
  | OpInit b => mode_of (init b m (snd x))
  | OpRestartWithoutTerrain => mode_of (restart_without_terrain m (snd x))
  | OpRun d => mode_of (run d m (snd x))
  end.

Definition after (m0 : Mode) (h : list (Op * W)) : Mode := fold_left step h m0.

(** The call is a tick of [run] that enters the climb phase: armed, the
    Starting phase complete. *)
Definition enters_climb (m : Mode) (x : Op * W) : bool :=
  match fst x, _state m with
  | OpRun _, Frank_Starting => motors_armed (snd x) && _state_complete m
  | _, _ => false
  end.

End Histories.

(** ** A bench vehicle

    A concrete [Vehicle] on which the controller can be run: its readings
    are fixed by [Inputs], the waypoint controller keeps its destination
    and clears "reached" when it accepts a new one, altitudes are
    converted between frames with a uniform terrain height, and every
    command is recorded. *)

Module Bench.

Record Inputs : Type := mkInputs {
  armed : bool;
  disarmed_or_landed : bool;
  home_set : bool;
  fs_terrain : bool;
  fs_radio : bool;
  now : Z;
  accept_destination : bool;
  params : Parameters;
  position : Location;
  home : Location;
  use_terrain : bool;
  terrain_height : option Z;   (* terrain above home, cm *)
  fences : Z;
  fence_top : float;           (* m *)
  landed : bool
}.

Record World : Type := mkWorld {
  inputs : Inputs;
  reached : bool;
  destination : Vector3f;
  yaw_mode : autopilot_yaw_mode;
  trace : list Cmd
}.

Definition config : Config :=
  mkConfig true true 200 250 (1 # 2) 1 1 (float_of_int 700).

Definition above_home (w : World) (l : Location) : option Z :=
  match alt_frame l with
  | ABSOLUTE => Some (alt l - alt (home (inputs w)))
  | ABOVE_HOME | ABOVE_ORIGIN => Some (alt l)
  | ABOVE_TERRAIN => option_map (fun h => alt l + h) (terrain_height (inputs w))
  end.

Definition alt_in (w : World) (l : Location) (f : AltFrame) : option Z :=
  match above_home w l with
  | None => None
  | Some a =>
      match f with
      | ABSOLUTE => Some (a + alt (home (inputs w)))
      | ABOVE_HOME | ABOVE_ORIGIN => Some a
      | ABOVE_TERRAIN => option_map (fun h => a - h) (terrain_height (inputs w))
      end
  end.

Definition record (c : Cmd) (w : World) : World :=
  mkWorld (inputs w) (reached w) (destination w)
          (match c with auto_yaw_set_mode y => y | _ => yaw_mode w end)
          (trace w ++ [c]).

Definition set_destination (v : Vector3f) (w : World) : bool * World :=
  if accept_destination (inputs w)
  then (true, mkWorld (inputs w) false v (yaw_mode w) (trace w))
  else (false, w).

#[export] Instance vehicle : Vehicle World := {|
  cfg := config;
  exec := record;
  wp_set_wp_destination := set_destination;
  wp_update_wpnav := fun w => (true, w);
  copter_set_mode := fun _ _ w => (true, w);
  g := fun w => params (inputs w);
  ahrs_home_is_set := fun w => home_set (inputs w);
  ahrs_get_home := fun w => home (inputs w);
  ahrs_yaw_sensor := fun _ => 0;
  initial_armed_bearing := fun _ => 0;
  failsafe_terrain := fun w => fs_terrain (inputs w);
  failsafe_radio := fun w => fs_radio (inputs w);
  millis := fun w => now (inputs w);
  motors_armed := fun w => armed (inputs w);
  motors_get_spool_state := fun _ => SpoolState_other;
  is_disarmed_or_landed := fun w => disarmed_or_landed (inputs w);
  ap_land_complete := fun w => landed (inputs w);
  ap_land_repo_active := fun _ => false;
  current_loc := fun w => position (inputs w);
  terrain_use := fun w => use_terrain (inputs w);
  rally_calc_best_rally_or_home_location := fun w _ _ => home (inputs w);
  fence_get_enabled_fences := fun w => fences (inputs w);
  fence_get_safe_alt_max := fun w => fence_top (inputs w);
  reached_wp_destination := reached;
  wp_get_roll := fun _ => 0%Q;
  wp_get_pitch := fun _ => 0%Q;
  wp_get_wp_destination := destination;
  loiter_get_roll := fun _ => 0%Q;
  loiter_get_pitch := fun _ => 0%Q;
  loiter_get_angle_max_cd := fun _ => 0%Q;
  get_althold_lean_angle_max := fun _ => 0%Q;
  get_stopping_point_xy := fun _ v => v;
  get_stopping_point_z := fun _ v => v;
  is_active_z := fun _ => true;
  inertial_nav_get_velocity_z := fun _ => 0%Q;
  auto_yaw_mode := yaw_mode;
  auto_yaw_yaw := fun _ => 0%Q;
  channel_yaw_get_control_in := fun _ => 0;
  get_pilot_desired_yaw_rate := fun _ _ => 0%Q;
  get_pilot_desired_lean_angles := fun _ _ _ => (0%Q, 0%Q);
  rc_throttle_control_in_filter_get := fun _ => 0%Q;
  G_Dt := fun _ => round32 (1 # 400);
  is_zero := fun f => Qeq_bool f 0;
  wrap_180_cd := fun z => z;
  Location_of_Vector3f := fun w _ => position (inputs w);
  get_alt_cm := alt_in;
  change_alt_frame := fun w l f =>
    option_map (fun a => mkLocation (lat l) (lng l) a f) (alt_in w l f);
  set_alt_cm := fun l a f => mkLocation (lat l) (lng l) a f;
  get_distance := fun a b =>
    float_of_int (Z.abs (lat a - lat b) + Z.abs (lng a - lng b))
|}.

Definition here (a : Z) (f : AltFrame) : Location := mkLocation 0 0 a f.

Definition blank_path : RTLPath :=
  mkRTLPath (here 0 ABOVE_HOME) (here 0 ABOVE_HOME) (here 0 ABOVE_HOME)
            (here 0 ABOVE_HOME) false false.

(** A controller as it is before its first activation. *)
Definition fresh : Mode :=
  mkMode Frank_Starting false true 0 0 0 false (repeat Vector3f_zero 14) blank_path.

End Bench.

(** ** Relations between the fields before and after a computation *)

(** [keeps R c]: the fields after [c] are related by [R] to the fields
    before, whatever the collaborators answer. *)
Definition keeps {W : Type} {V : Vehicle W} (R : Mode -> Mode -> Prop)
    {A : Type} (c : M W A) : Prop :=
  forall m w, R m (mode_of (c m w)).

Definition unchanged (m m' : Mode) : Prop := m' = m.
Definition same_index (m m' : Mode) : Prop := mission_index m' = mission_index m.
Definition same_state (m m' : Mode) : Prop := _state m' = _state m.
Definition same_latch (m m' : Mode) : Prop := mission_completed m' = mission_completed m.
Definition latched (m m' : Mode) : Prop :=
  mission_completed m = true -> mission_completed m' = true.
(** The cursor stays or moves one waypoint forward, up to 13. *)
Definition advanced (m m' : Mode) : Prop :=
  mission_index m' = mission_index m \/
  (mission_index m < 13 /\ mission_index m' = mission_index m + 1).
(** The cursor is where it was, or at [v]. *)
Definition index_in (v : Z) (m m' : Mode) : Prop :=
  mission_index m' = v \/ mission_index m' = mission_index m.

(** [ends_with Q c]: [Q] holds of the outcome of [c], from any fields and
    collaborators. *)
Definition ends_with {W : Type} {V : Vehicle W} {A : Type}
    (Q : A * Mode * W -> Prop) (c : M W A) : Prop :=
  forall m w, Q (c m w).

(** ** Bench scenarios *)

Module Scenario.
Import Bench.

Definition parameters (climb_min rtl_alt : Z) : Parameters :=
  mkParameters 0 climb_min rtl_alt (float_of_int 3) 0 5000 0 0.

(** The vehicle armed and airborne at home-relative altitude [a], the
    clock at [t], the waypoint controller reporting [r]. *)
Definition flying (p : Parameters) (a t : Z) (r : bool) : World :=
  mkWorld
    (mkInputs true false true false false t true p (here a ABOVE_HOME)
              (here 0 ABSOLUTE) false None 0 (float_of_int 100) false)
    r Vector3f_zero AUTO_YAW_HOLD [].

Definition at_time (t : Z) (r : bool) : World := flying (parameters 0 1500) 1000 t r.

Definition tick (t : Z) (r : bool) : Op * World := (OpRun false, at_time t r).

(** A first activation: the climb phase is entered, the thirteen scripted
    legs are flown, and the dwell ends after 181 s. *)
Definition first_activation : list (Op * World) :=
  (OpInit false, at_time 0 false) :: tick 10 false ::
  repeat (tick 1000 true) 13 ++ [tick 181000 true].

(** A second activation at 300 s, flown up to the last leg. *)
Definition second_activation : list (Op * World) :=
  (OpInit false, at_time 300000 false) :: tick 300010 false ::
  repeat (tick 300500 true) 13.

Definition after_first : Mode := after fresh first_activation.
Definition in_second : Mode := after after_first second_activation.

(** The first activation with its legs flown, before the dwell ends. *)
Definition at_leg_13 : Mode :=
  after fresh ((OpInit false, at_time 0 false) :: tick 10 false ::
               repeat (tick 1000 true) 13).

(** The first activation stopped one leg before the end. *)
Definition at_leg_12 : Mode :=
  after fresh ((OpInit false, at_time 0 false) :: tick 10 false ::
               repeat (tick 1000 true) 12).

(** Close to home: current altitude 1000 cm, minimum climb 1000 cm, RTL
    altitude 1500 cm, cone slope 3. *)
Definition near_home : World := flying (parameters 1000 1500) 1000 0 false.

(** The scenario of the specification: current altitude 300 cm, RTL
    altitude 500 cm, minimum climb 100 cm. *)
Definition spec_scenario : World := flying (parameters 100 500) 300 0 false.

(** Terrain 49 m above home, the vehicle 1 m above it, terrain following
    in use, an altitude fence at 40 m above home. *)
Definition over_hill (fence_on : bool) : World :=
  mkWorld
    (mkInputs true false true false false 0 true (parameters 0 0)
              (here 5000 ABOVE_HOME) (here 0 ABSOLUTE) true (Some 4900)
              (if fence_on then 1 else 0) (float_of_int 40) false)
    false Vector3f_zero AUTO_YAW_HOLD [].


(** Loitering over home is complete. *)
Definition loiter_done : Mode :=
  set_state_complete true (set_state Frank_LoiterAtHome fresh).

(** The second activation just after its climb phase has been entered:
    the cursor is back at 0. *)
Definition reactivated : Mode :=
  after after_first [(OpInit false, at_time 300000 false); tick 300010 false].



End Scenario.

(** ** The position queries of the mode

    [get_wp], [wp_distance] and [wp_bearing] read the waypoint controller
    through three calls of their own. *)

Class WpNavQueries (W : Type) : Type := {
  get_oa_wp_destination : W -> option Location;
  get_wp_distance_to_destination : W -> Z;
  get_wp_bearing_to_destination : W -> Z
}.

(** [ModeFrank::get_wp], lines 569-584: the destination written through
    the reference is the result, [None] when the call answers false. *)
Definition get_wp {W : Type} {Q : WpNavQueries W} (m : Mode) (w : W) : option Location :=
  match _state m with
  | Frank_Starting
  | Frank_InitialClimb
  | Frank_ReturnHome
  | Frank_LoiterAtHome
  | Frank_FinalDescent => get_oa_wp_destination w
  | Frank_Land => None
  end.

(** [ModeFrank::wp_distance] and [wp_bearing], lines 586-592. *)
Definition wp_distance {W : Type} {Q : WpNavQueries W} (w : W) : Z :=
  get_wp_distance_to_destination w.
Definition wp_bearing {W : Type} {Q : WpNavQueries W} (w : W) : Z :=
  get_wp_bearing_to_destination w.

(** ** Ticks *)

(** The place of a phase in the order in which [run] enters them. *)
Definition phase_rank (s : Frank_State) : Z :=
  match s with
  | Frank_Starting => 0
  | Frank_InitialClimb => 1
  | Frank_ReturnHome => 2
  | Frank_LoiterAtHome => 3
  | Frank_FinalDescent => 4
  | Frank_Land => 5
  end.

(** A flight: calls of [run] only, each with the collaborators it finds. *)
Definition fly {W : Type} {V : Vehicle W} (m0 : Mode) (h : list (bool * W)) : Mode :=
  fold_left (fun m x => mode_of (run (fst x) m (snd x))) h m0.

Definition no_earlier (m m' : Mode) : Prop :=
  phase_rank (_state m) <= phase_rank (_state m').

(** The phase is kept, or the restart put it back to Starting. *)
Definition same_state_or_restarted (m m' : Mode) : Prop :=
  _state m' = _state m \/ _state m' = Frank_Starting.

(** Everything but the phase, the completion flag, the cursor and the
    latch is as it was: what a behaviour handler leaves alone. *)
Definition same_plan (m m' : Mode) : Prop :=
  terrain_following_allowed m' = terrain_following_allowed m /\
  start_time_ms m' = start_time_ms m /\
  _loiter_start_time m' = _loiter_start_time m /\
  mission_wp m' = mission_wp m /\
  rtl_path m' = rtl_path m.

(** Everything but the return target and [terrain_used] is as it was. *)
Definition same_but_return_target (m m' : Mode) : Prop :=
  _state m' = _state m /\
  _state_complete m' = _state_complete m /\
  terrain_following_allowed m' = terrain_following_allowed m /\
  start_time_ms m' = start_time_ms m /\
  _loiter_start_time m' = _loiter_start_time m /\
  mission_index m' = mission_index m /\
  mission_completed m' = mission_completed m /\
  mission_wp m' = mission_wp m /\
  origin_point (rtl_path m') = origin_point (rtl_path m) /\
  climb_target (rtl_path m') = climb_target (rtl_path m) /\
  descent_target (rtl_path m') = descent_target (rtl_path m) /\
  land (rtl_path m') = land (rtl_path m).

(** What [build_path] leaves alone: the state machine's own fields. *)
Definition same_machine (m m' : Mode) : Prop :=
  _state m' = _state m /\
  _state_complete m' = _state_complete m /\
  terrain_following_allowed m' = terrain_following_allowed m /\
  start_time_ms m' = start_time_ms m /\
  _loiter_start_time m' = _loiter_start_time m /\
  mission_index m' = mission_index m /\
  mission_completed m' = mission_completed m.

Definition is_some {A : Type} (o : option A) : bool :=
  match o with Some _ => true | None => false end.

(** The return point that [compute_return_target] starts from, lines
    494-498. *)
Definition return_point {W : Type} {V : Vehicle W} (w : W) : Location :=
  if AC_RALLY cfg
  then rally_calc_best_rally_or_home_location w (current_loc w) (alt (ahrs_get_home w))
  else ahrs_get_home w.

(** ** More bench scenarios *)

Module Cases.
Import Bench Scenario.

(** Armed, on the ground. *)
Definition on_ground : World :=
  mkWorld
    (mkInputs true true true false false 0 true (parameters 0 1500) (here 0 ABOVE_HOME)
              (here 0 ABSOLUTE) false None 0 (float_of_int 100) true)
    false Vector3f_zero AUTO_YAW_HOLD [].

(** No home position yet. *)
Definition no_home : World :=
  mkWorld
    (mkInputs true false false false false 0 true (parameters 0 1500) (here 0 ABOVE_HOME)
              (here 0 ABSOLUTE) false None 0 (float_of_int 100) false)
    false Vector3f_zero AUTO_YAW_HOLD [].

(** Over the hill with terrain data, the waypoint controller refusing
    destinations. *)
Definition refusing : World :=
  mkWorld
    (mkInputs true false true false false 0 false (parameters 0 0)
              (here 5000 ABOVE_HOME) (here 0 ABSOLUTE) true (Some 4900)
              0 (float_of_int 40) false)
    true Vector3f_zero AUTO_YAW_HOLD [].

(** The climb phase complete on a path that uses terrain altitudes. *)
Definition climb_done_on_terrain : Mode :=
  set_state_complete true
    (set_state Frank_InitialClimb
       (upd_rtl_path (set_terrain_used true) fresh)).

(** Loitering since 1000 ms, not complete. *)
Definition loitering : Mode :=
  set_loiter_start_time 1000 (set_state Frank_LoiterAtHome fresh).

(** The cursor at 13, activated 1000 ms before the clock wraps. *)
Definition late_start : Mode :=
  set_start_time_ms 4294966296 (set_mission_index 13 fresh).

End Cases.

(** [terrain_used] is as it was. *)
Definition same_terrain_used (m m' : Mode) : Prop :=
  terrain_used (rtl_path m') = terrain_used (rtl_path m).

(** * Relations that every step of a computation maintains *)

(** Unfolds the monad, leaving the collaborators' calls. *)
Ltac run_m :=
  unfold bind, ret, get, modify, ask, call, call_r, when, and_then,
         mode_of, world_of, value_of in *.

Section Keeps.

Context {W : Type} {V : Vehicle W}.
Variable R : Mode -> Mode -> Prop.
Hypothesis R_refl : forall m, R m m.
Hypothesis R_trans : forall a b c, R a b -> R b c -> R a c.

Lemma keeps_ret {A} (a : A) : keeps R (ret a).
Proof. intros m w; apply R_refl. Qed.

Lemma keeps_get : keeps R get.
Proof. intros m w; apply R_refl. Qed.

Lemma keeps_ask {A} (q : W -> A) : keeps R (ask q).
Proof. intros m w; apply R_refl. Qed.

Lemma keeps_call (c : Cmd) : keeps R (call c).
Proof. intros m w; apply R_refl. Qed.

Lemma keeps_call_r {A} (f : W -> A * W) : keeps R (call_r f).
Proof. intros m w; unfold call_r, mode_of; destruct (f w); apply R_refl. Qed.

Lemma keeps_modify (f : Mode -> Mode) : (forall m, R m (f m)) -> keeps R (modify f).
Proof. intros H m w; apply H. Qed.

Lemma keeps_bind {A B} (c : M W A) (k : A -> M W B) :
  keeps R c -> (forall a, keeps R (k a)) -> keeps R (bind c k).
Proof.
  intros Hc Hk m w. unfold bind, mode_of.
  specialize (Hc m w). unfold mode_of in Hc.
  destruct (c m w) as [[a m1] w1]; simpl in Hc.
  apply R_trans with m1; [ exact Hc | apply Hk ].
Qed.

Lemma keeps_when (b : bool) (c : M W unit) : keeps R c -> keeps R (when b c).
Proof. intros H; destruct b; simpl; [ exact H | apply keeps_ret ]. Qed.

Lemma keeps_and_then (b : bool) (c : M W bool) : keeps R c -> keeps R (and_then b c).
Proof. intros H; destruct b; simpl; [ exact H | apply keeps_ret ]. Qed.

End Keeps.

(** One structural step of a [keeps] proof; [leaf] closes the goals about
    [modify] and about functions already dealt with. *)
Ltac keeps_step Hr Ht leaf :=
  lazymatch goal with
  | |- keeps _ (ret _) => apply (keeps_ret _ Hr)
  | |- keeps _ get => apply (keeps_get _ Hr)
  | |- keeps _ (ask _) => apply (keeps_ask _ Hr)
  | |- keeps _ (call _) => apply (keeps_call _ Hr)
  | |- keeps _ (call_r _) => apply (keeps_call_r _ Hr)
  | |- keeps _ (bind _ _) => apply (keeps_bind _ Ht); [ | intro ]
  | |- keeps _ (when _ _) => apply (keeps_when _ Hr)
  | |- keeps _ (and_then _ _) => apply (keeps_and_then _ Hr)
  | |- keeps _ (modify _) => apply keeps_modify; intro; leaf
  | |- keeps _ (let _ := _ in _) => cbv zeta
  | |- keeps _ (if ?b then _ else _) => destruct b
  | |- keeps _ (match ?x with _ => _ end) => destruct x
  | |- _ => leaf
  end.

Ltac keeps_all Hr Ht leaf := repeat (keeps_step Hr Ht leaf).

(** The definitions of the controller that are sequences of the
    primitives; [climb_start], [return_start] and the sequencer, which
    move the cursor, are left folded. *)
Ltac unfold_handlers :=
  repeat progress unfold init, init_body, restart_without_terrain, spin_yaw, pilot_yaw_input,
    run_wp_controllers, climb_return_setpoints, check_stage_complete,
    loiterathome_start, loiterathome_run, descent_start, descent_pilot_input,
    descent_run, land_start, land_run, fence_clamp, terrain_data_missing,
    terrain_lookups, return_target_change_alt_frame, convert_return_target_frame,
    resolve_return_target, compute_return_target, build_path.

Section Frames.

Context {W : Type} {V : Vehicle W}.

Lemma unchanged_refl m : unchanged m m.
Proof. reflexivity. Qed.
Lemma unchanged_trans a b c : unchanged a b -> unchanged b c -> unchanged a c.
Proof. unfold unchanged; congruence. Qed.

Lemma same_index_refl m : same_index m m.
Proof. reflexivity. Qed.
Lemma same_index_trans a b c : same_index a b -> same_index b c -> same_index a c.
Proof. unfold same_index; congruence. Qed.

Lemma same_state_refl m : same_state m m.
Proof. reflexivity. Qed.
Lemma same_state_trans a b c : same_state a b -> same_state b c -> same_state a c.
Proof. unfold same_state; congruence. Qed.

Lemma same_latch_refl m : same_latch m m.
Proof. reflexivity. Qed.
Lemma same_latch_trans a b c : same_latch a b -> same_latch b c -> same_latch a c.
Proof. unfold same_latch; congruence. Qed.

Lemma latched_refl m : latched m m.
Proof. intro H; exact H. Qed.
Lemma latched_trans a b c : latched a b -> latched b c -> latched a c.
Proof. unfold latched; auto. Qed.

Local Ltac frame_leaf := solve [ reflexivity | assumption ].

(** *** What leaves the fields alone *)

Lemma climb_return_setpoints_unchanged : keeps unchanged climb_return_setpoints.
Proof. unfold_handlers. keeps_all unchanged_refl unchanged_trans frame_leaf. Qed.

(** *** What leaves the cursor alone *)

Local Ltac same_index_auto :=
  unfold_handlers; keeps_all same_index_refl same_index_trans frame_leaf.

Lemma init_same_index b : keeps same_index (init b).
Proof. same_index_auto. Qed.

Lemma restart_same_index : keeps same_index restart_without_terrain.
Proof. same_index_auto. Qed.

Lemma check_stage_complete_same_index : keeps same_index check_stage_complete.
Proof. same_index_auto. Qed.

Lemma loiterathome_start_same_index : keeps same_index loiterathome_start.
Proof. same_index_auto. Qed.

Lemma loiterathome_run_same_index : keeps same_index loiterathome_run.
Proof. same_index_auto. Qed.

Lemma descent_start_same_index : keeps same_index descent_start.
Proof. same_index_auto. Qed.

Lemma descent_run_same_index : keeps same_index descent_run.
Proof. same_index_auto. Qed.

Lemma land_start_same_index : keeps same_index land_start.
Proof. same_index_auto. Qed.

Lemma land_run_same_index d : keeps same_index (land_run d).
Proof. same_index_auto. Qed.

Lemma build_path_same_index : keeps same_index build_path.
Proof. same_index_auto. Qed.

End Frames.

Section Cursor.

Context {W : Type} {V : Vehicle W}.

Lemma bind_run {A B} (c : M W A) (k : A -> M W B) (m : Mode) (w : W) :
  bind c k m w = k (value_of (c m w)) (mode_of (c m w)) (world_of (c m w)).
Proof.
  unfold bind, value_of, mode_of, world_of.
  destruct (c m w) as [[a m1] w1]; reflexivity.
Qed.

Lemma bind_get {B} (k : Mode -> M W B) (m : Mode) (w : W) :
  bind get k m w = k m m w.
Proof. reflexivity. Qed.

Lemma bind_ask {A B} (q : W -> A) (k : A -> M W B) (m : Mode) (w : W) :
  bind (ask q) k m w = k (q w) m w.
Proof. reflexivity. Qed.

Lemma bind_modify {B} (f : Mode -> Mode) (k : unit -> M W B) (m : Mode) (w : W) :
  bind (modify f) k m w = k tt (f m) w.
Proof. reflexivity. Qed.

Lemma index_in_refl v m : index_in v m m.
Proof. right; reflexivity. Qed.

Lemma index_in_trans v a b c : index_in v a b -> index_in v b c -> index_in v a c.
Proof.
  unfold index_in; intros [H|H] [H'|H']; [ left | left | left | right ]; congruence.
Qed.

Local Ltac index_leaf :=
  solve [ right; reflexivity | left; reflexivity | assumption ].

Lemma climb_start_index : keeps (index_in 0) climb_start.
Proof.
  unfold climb_start; unfold_handlers.
  keeps_all (index_in_refl 0) (index_in_trans 0) index_leaf.
Qed.

Lemma return_start_index : keeps (index_in 13) return_start.
Proof.
  unfold return_start; unfold_handlers.
  keeps_all (index_in_refl 13) (index_in_trans 13) index_leaf.
Qed.

(** The sequencer, case by case. *)
Lemma waypoint_sequencer_cases (m : Mode) (w : W) :
  let r := waypoint_sequencer m w in
  if (mission_index m <? 13) && reached_wp_destination w then
    mode_of r = set_mission_index (mission_index m + 1) m /\
    world_of r =
      exec (console_printf "Mission Index: %d\n" (mission_index m + 1))
           (snd (wp_set_wp_destination
                   (wp_at (mission_wp m) (mission_index m + 1)) w))
  else if (mission_index m >=? 13) && reached_wp_destination w then
    if wrap_u32 (millis w - start_time_ms m) >? 180000 then
      mode_of r = set_mission_completed true m /\ world_of r = w
    else
      mode_of r = m /\
      world_of r =
        exec (console_printf "spinning, time is %d\n"
                (wrap_u32 (millis w - start_time_ms m))) w
  else mode_of r = m /\ world_of r = w.
Proof.
  unfold waypoint_sequencer; run_m.
  destruct (mission_index m <? 13) eqn:Hlt; simpl.
  - destruct (reached_wp_destination w); simpl.
    + destruct (wp_set_wp_destination _ w) as [ok w1]; simpl. split; reflexivity.
    + assert (Hge : (mission_index m >=? 13) = false).
      { apply Z.ltb_lt in Hlt. rewrite Z.geb_leb. apply Z.leb_gt. lia. }
      rewrite Hge; simpl. split; reflexivity.
  - assert (Hge : (mission_index m >=? 13) = true).
    { apply Z.ltb_ge in Hlt. rewrite Z.geb_leb. apply Z.leb_le. lia. }
    rewrite Hge; simpl.
    destruct (reached_wp_destination w); simpl.
    + destruct (wrap_u32 (millis w - start_time_ms m) >? 180000); simpl;
        split; reflexivity.
    + split; reflexivity.
Qed.

Lemma check_stage_complete_run (m : Mode) (w : W) :
  check_stage_complete m w =
    (tt, set_state_complete (reached_wp_destination w && mission_completed m) m, w).
Proof. reflexivity. Qed.

(** A tick of [climb_return_run] past the disarmed-or-landed guard is the
    sequencer and the completion check, run on the fields as they were and
    on the collaborators as the setpoints left them. *)
Lemma climb_return_run_airborne (m : Mode) (w : W) :
  is_disarmed_or_landed w = false ->
  let w1 := world_of (climb_return_setpoints m w) in
  let s := waypoint_sequencer m w1 in
  climb_return_run m w =
    (tt,
     set_state_complete
       (reached_wp_destination (world_of s) && mission_completed (mode_of s))
       (mode_of s),
     world_of s).
Proof.
  intros Hd. cbv zeta.
  unfold climb_return_run.
  rewrite bind_ask, Hd.
  rewrite bind_run.
  pose proof (climb_return_setpoints_unchanged m w) as Hu. unfold unchanged in Hu.
  rewrite Hu.
  rewrite bind_run.
  apply check_stage_complete_run.
Qed.

Lemma climb_return_run_grounded (m : Mode) (w : W) :
  is_disarmed_or_landed w = true ->
  climb_return_run m w = (tt, m, exec make_safe_spool_down w).
Proof.
  intros Hd. unfold climb_return_run; run_m. rewrite Hd. reflexivity.
Qed.

Lemma waypoint_sequencer_advanced : keeps advanced waypoint_sequencer.
Proof.
  intros m w. pose proof (waypoint_sequencer_cases m w) as H. cbv zeta in H.
  unfold advanced.
  destruct (mission_index m <? 13) eqn:Hlt; simpl in H.
  - destruct (reached_wp_destination w); simpl in H.
    + destruct H as [-> _]. simpl. right. apply Z.ltb_lt in Hlt. lia.
    + destruct (mission_index m >=? 13); simpl in H; destruct H as [-> _]; auto.
  - destruct ((mission_index m >=? 13) && reached_wp_destination w).
    + destruct (wrap_u32 (millis w - start_time_ms m) >? 180000);
        destruct H as [-> _]; auto.
    + destruct H as [-> _]; auto.
Qed.

Lemma climb_return_run_advanced : keeps advanced climb_return_run.
Proof.
  intros m w. destruct (is_disarmed_or_landed w) eqn:Hd.
  - rewrite climb_return_run_grounded by exact Hd. left; reflexivity.
  - rewrite climb_return_run_airborne by exact Hd.
    apply (waypoint_sequencer_advanced m).
Qed.

End Cursor.

Section Preservation.

Context {W : Type} {V : Vehicle W}.

Local Ltac unfold_controller :=
  repeat progress
    (unfold climb_start, return_start, waypoint_sequencer, climb_return_run,
       next_phase, run_phase, run; unfold_handlers).

(** *** The latch *)

Local Ltac latched_leaf := solve [ unfold latched; simpl; auto ].

Lemma run_latched d : keeps latched (run d).
Proof. unfold_controller. keeps_all latched_refl latched_trans latched_leaf. Qed.

Lemma init_latched b : keeps latched (init b).
Proof. unfold_controller. keeps_all latched_refl latched_trans latched_leaf. Qed.

Lemma restart_latched : keeps latched restart_without_terrain.
Proof. unfold_controller. keeps_all latched_refl latched_trans latched_leaf. Qed.

Lemma step_latched (m : Mode) (x : Op * W) : latched m (step m x).
Proof.
  destruct x as [[b| |d] w]; unfold step; simpl.
  - apply init_latched.
  - apply restart_latched.
  - apply run_latched.
Qed.

Lemma after_latched (h : list (Op * W)) (m0 : Mode) : latched m0 (after m0 h).
Proof.
  unfold after. revert m0.
  induction h as [|x h IH]; intros m0; simpl.
  - apply latched_refl.
  - eapply latched_trans; [ apply step_latched | apply IH ].
Qed.

Lemma waypoint_sequencer_latched (m : Mode) (w : W) :
  mission_completed m = true ->
  mission_completed (mode_of (waypoint_sequencer m w)) = true.
Proof.
  apply (@keeps_bind W V latched latched_trans).
  - apply (keeps_get _ latched_refl).
  - intro a. keeps_all latched_refl latched_trans latched_leaf.
Qed.

Local Ltac same_leaf := solve [ reflexivity | assumption ].

Lemma init_same_latch b : keeps same_latch (init b).
Proof. unfold_handlers. keeps_all same_latch_refl same_latch_trans same_leaf. Qed.

Lemma climb_start_same_latch : keeps same_latch climb_start.
Proof.
  unfold climb_start; unfold_handlers.
  keeps_all same_latch_refl same_latch_trans same_leaf.
Qed.

(** *** The phase *)

Lemma land_run_same_state d : keeps same_state (land_run d).
Proof. unfold_handlers. keeps_all same_state_refl same_state_trans same_leaf. Qed.

Lemma descent_run_same_state : keeps same_state descent_run.
Proof. unfold_handlers. keeps_all same_state_refl same_state_trans same_leaf. Qed.

Lemma land_start_state (m : Mode) (w : W) :
  _state (mode_of (land_start m w)) = Frank_Land.
Proof. unfold land_start; run_m; simpl. destruct (is_active_z _); reflexivity. Qed.

Lemma descent_start_state (m : Mode) (w : W) :
  _state (mode_of (descent_start m w)) = Frank_FinalDescent.
Proof. reflexivity. Qed.

Lemma run_phase_land d (m : Mode) (w : W) :
  _state m = Frank_Land -> _state (mode_of (run_phase d m w)) = Frank_Land.
Proof.
  intros H. unfold run_phase. rewrite bind_get.
  rewrite H. rewrite <- H. apply land_run_same_state.
Qed.

Lemma run_phase_descent d (m : Mode) (w : W) :
  _state m = Frank_FinalDescent ->
  _state (mode_of (run_phase d m w)) = Frank_FinalDescent.
Proof.
  intros H. unfold run_phase. rewrite bind_get.
  rewrite H. rewrite <- H. apply descent_run_same_state.
Qed.

Lemma ends_with_bind {A B} (Q : B * Mode * W -> Prop) (c : M W A) (k : A -> M W B) :
  (forall a, ends_with Q (k a)) -> ends_with Q (bind c k).
Proof.
  intros H m w. unfold bind. destruct (c m w) as [[a m1] w1]. apply H.
Qed.

Lemma build_path_land (m : Mode) (w : W) :
  land (rtl_path (mode_of (build_path m w)))
  = (rtl_alt_final (g (world_of (build_path m w))) <=? 0).
Proof.
  revert m w.
  change (ends_with
            (fun r => land (rtl_path (mode_of r))
                      = (rtl_alt_final (g (world_of r)) <=? 0)) build_path).
  unfold build_path.
  repeat first [ solve [ intros m w; reflexivity ]
               | apply ends_with_bind; intro ].
Qed.

End Preservation.

Section CursorHistory.

Context {W : Type} {V : Vehicle W}.

Lemma run_phase_advanced d : keeps advanced (run_phase d).
Proof.
  intros m w. unfold run_phase. rewrite bind_get.
  assert (Hs : forall (c : M W unit), keeps same_index c -> advanced m (mode_of (c m w))).
  { intros c Hc. left. apply Hc. }
  destruct (_state m).
  - rewrite bind_modify. apply (climb_return_run_advanced (set_state Frank_InitialClimb m)).
  - apply climb_return_run_advanced.
  - apply climb_return_run_advanced.
  - apply Hs, loiterathome_run_same_index.
  - apply Hs, descent_run_same_index.
  - apply Hs, land_run_same_index.
Qed.

(** Entering a phase leaves the cursor in place or at 13, except that
    entering the climb phase may put it at 0. *)
Lemma next_phase_index (m : Mode) (w : W) :
  let m1 := mode_of (next_phase m w) in
  index_in 13 m m1 \/
  (_state_complete m = true /\ _state m = Frank_Starting /\ mission_index m1 = 0).
Proof.
  cbv zeta. unfold next_phase. rewrite bind_get.
  assert (Hs : forall (c : M W unit),
             keeps same_index c -> index_in 13 m (mode_of (c m w))).
  { intros c Hc. right. apply Hc. }
  destruct (_state_complete m) eqn:Hc; [ | left; right; reflexivity ].
  destruct (_state m) eqn:Hst.
  - rewrite bind_run.
    pose proof (build_path_same_index m w) as Hb. unfold same_index in Hb.
    destruct (climb_start_index (mode_of (build_path m w))
                (world_of (build_path m w))) as [H0|H0].
    + right. auto.
    + left. right. congruence.
  - left. apply return_start_index.
  - left. apply Hs, loiterathome_start_same_index.
  - left. rewrite bind_ask.
    destruct (land (rtl_path m) || failsafe_radio w).
    + apply Hs, land_start_same_index.
    + apply Hs, descent_start_same_index.
  - left; right; reflexivity.
  - left; right; reflexivity.
Qed.

(** One call of the controller: the cursor stays within the script and
    does not move back, unless the call entered the climb phase. *)
Lemma step_index (m : Mode) (x : Op * W) :
  mission_index m <= 13 ->
  mission_index (step m x) <= 13 /\
  (mission_index m <= mission_index (step m x) \/
   (enters_climb m x = true /\ 0 <= mission_index (step m x) <= 1)).
Proof.
  intros Hm. destruct x as [[b| |d] w]; unfold step, enters_climb; cbn [fst snd].
  - pose proof (init_same_index b m w) as H. unfold same_index in H. lia.
  - pose proof (restart_same_index m w) as H. unfold same_index in H. lia.
  - unfold run. rewrite bind_ask.
    destruct (motors_armed w); cbn [negb].
    + rewrite bind_run.
      pose proof (next_phase_index m w) as Hn. cbv zeta in Hn.
      pose proof (run_phase_advanced d (mode_of (next_phase m w))
                    (world_of (next_phase m w))) as Ha.
      unfold advanced in Ha. unfold index_in in Hn.
      destruct Hn as [Hn | (Hc & Hst & H0)].
      * lia.
      * rewrite Hc, Hst. cbn [andb]. lia.
    + unfold ret, mode_of; cbn [fst snd]. lia.
Qed.

Lemma after_index (h : list (Op * W)) (m0 : Mode) :
  mission_index m0 <= 13 -> mission_index (after m0 h) <= 13.
Proof.
  unfold after. revert m0.
  induction h as [|x h IH]; intros m0 H0; simpl.
  - exact H0.
  - apply IH. apply step_index. exact H0.
Qed.

End CursorHistory.

(** * Activation and restart *)

Section Activation.

Context {W : Type} {V : Vehicle W}.

(** C8. [init(ignore_checks)] fails exactly when no home is set and the
    checks are not bypassed.  When it succeeds the phase is Starting and
    marked complete, terrain following is allowed exactly when the terrain
    failsafe is not active, and the activation time is the clock's reading
    (both read once the waypoint controller was initialised). *)
Theorem init_contract (ignore_checks : bool) (m : Mode) (w : W) :
  let r := init ignore_checks m w in
  (value_of r = false <-> (ahrs_home_is_set w = false /\ ignore_checks = false)) /\
  (value_of r = true ->
     _state (mode_of r) = Frank_Starting /\
     _state_complete (mode_of r) = true /\
     terrain_following_allowed (mode_of r)
       = negb (failsafe_terrain (exec wp_and_spline_init w)) /\
     start_time_ms (mode_of r) = millis (exec wp_and_spline_init w)).
Proof.
  unfold init, init_body; run_m.
  destruct ignore_checks; simpl.
  - split; [ split; [ discriminate | intros [_ H]; discriminate ] | auto ].
  - destruct (ahrs_home_is_set w); simpl.
    + split; [ split; [ discriminate | intros [H _]; discriminate ] | auto ].
    + split; [ split; auto | discriminate ].
Qed.

(** C7. [restart_without_terrain()] on a path that did not use terrain
    altitudes leaves every field of the controller as it was and its only
    call is the logger's; no text goes to the operator.  On a path that
    used them it forbids terrain following, returns to the Starting phase
    marked complete, keeps the other fields, and sends the operator a
    text. *)
Theorem restart_without_terrain_effect (m : Mode) (w : W) :
  let r := restart_without_terrain m w in
  let logged := exec (logger_Write_Error NAVIGATION RESTARTED_RTL) w in
  if terrain_used (rtl_path m) then
    terrain_following_allowed (mode_of r) = false /\
    _state (mode_of r) = Frank_Starting /\
    _state_complete (mode_of r) = true /\
    mode_of r = set_state_complete true
                  (set_state Frank_Starting (set_terrain_following_allowed false m)) /\
    world_of r = exec (gcs_send_text MAV_SEVERITY_CRITICAL
                         "Restarting RTL - Terrain data missing") logged
  else
    mode_of r = m /\ world_of r = logged.
Proof.
  unfold restart_without_terrain; run_m; simpl.
  destruct (terrain_used (rtl_path m)); simpl; repeat split.
Qed.

(** C2. Whatever altitude the policy resolved, [compute_return_target]
    ends by writing 700 into the return target's altitude. *)
Theorem compute_return_target_alt_is_700 (m : Mode) (w : W) :
  alt (return_target (rtl_path (mode_of (compute_return_target m w)))) = 700.
Proof.
  unfold compute_return_target; run_m.
  destruct (resolve_return_target m w) as [[u m1] w1]; reflexivity.
Qed.

End Activation.

(** * The entries of the two flying phases *)

Section Entries.

Context {W : Type} {V : Vehicle W}.

(** The collaborators as [climb_start] finds them when it sets the
    destination: the speed was set unless [g.rtl_speed_cms] is 0. *)
Lemma climb_start_run (m : Mode) (w : W) :
  let w1 := if negb (rtl_speed_cms (g w) =? 0)
            then exec (wp_set_speed_xy (rtl_speed_cms (g w))) w else w in
  let m1 := set_state_complete false (set_state Frank_InitialClimb m) in
  let set := wp_set_wp_destination (wp_at (mission_wp m) 0) w1 in
  mode_of (climb_start m w) = if fst set then set_mission_index 0 m1 else m1.
Proof.
  cbv zeta. unfold climb_start. rewrite !bind_modify, bind_ask.
  rewrite bind_run.
  assert (Hw : forall b c (m0 : Mode),
             when b (call c) m0 w = (tt, m0, if b then exec c w else w)).
  { intros [] c m0; reflexivity. }
  rewrite Hw. unfold value_of, mode_of at 2, world_of; cbn [fst snd].
  rewrite bind_get. cbn [mission_wp set_state_complete set_state].
  unfold bind at 1, call_r.
  destruct (wp_set_wp_destination _ _) as [ok w2]; cbn [fst negb].
  destruct ok; cbn [negb].
  - rewrite bind_modify. unfold_handlers. run_m. reflexivity.
  - run_m. destruct (copter_set_mode _ _ _). reflexivity.
Qed.

Lemma return_start_run (m : Mode) (w : W) :
  let m1 := set_state_complete false (set_state Frank_ReturnHome m) in
  let accepted := fst (wp_set_wp_destination (wp_at (mission_wp m) 12) w) in
  mode_of (return_start m w) =
    set_mission_index 13
      (if negb accepted && terrain_used (rtl_path m)
       then set_state_complete true
              (set_state Frank_Starting (set_terrain_following_allowed false m1))
       else m1).
Proof.
  cbv zeta. unfold return_start. rewrite !bind_modify, bind_get.
  cbn [mission_wp set_state_complete set_state].
  unfold bind at 1, call_r.
  destruct (wp_set_wp_destination _ _) as [ok w2]; cbn [fst negb].
  destruct ok; cbn [negb andb when].
  - run_m. unfold_handlers. run_m. reflexivity.
  - unfold restart_without_terrain. run_m. unfold_handlers. run_m.
    cbn [rtl_path set_state_complete set_state].
    destruct (terrain_used (rtl_path m)); reflexivity.
Qed.

End Entries.

Section Sequencing.

Context {W : Type} {V : Vehicle W}.

(** X18.  In a tick of [climb_return_run] that passes the
    disarmed-or-landed guard and starts with [mission_completed] not yet
    latched, as in a first activation, the phase is marked complete
    exactly when the waypoint controller reports the destination reached,
    the cursor is at 13 or beyond, and more than 180 000 ms separate the
    clock from [start_time_ms]; reaching the destination alone, or the
    elapsed time alone, does not mark it. *)
Theorem stage_complete_iff_reached_and_dwell (m : Mode) (w : W) :
  is_disarmed_or_landed w = false ->
  mission_completed m = false ->
  let w1 := world_of (climb_return_setpoints m w) in
  _state_complete (mode_of (climb_return_run m w)) = true <->
  (reached_wp_destination w1 = true /\
   13 <= mission_index m /\
   180000 < wrap_u32 (millis w1 - start_time_ms m)).
Proof.
  intros Hd Hl w1.
  rewrite (climb_return_run_airborne m w Hd). fold w1.
  unfold mode_of at 1. cbn [fst snd].
  pose proof (waypoint_sequencer_cases m w1) as H. cbv zeta in H.
  destruct (mission_index m <? 13) eqn:Hlt.
  - apply Z.ltb_lt in Hlt.
    assert (Hno : mission_completed (mode_of (waypoint_sequencer m w1)) = false).
    { cbn [andb] in H. destruct (reached_wp_destination w1).
      - destruct H as [-> _]. exact Hl.
      - destruct (mission_index m >=? 13); cbn [andb] in H;
          destruct H as [-> _]; exact Hl. }
    cbn [_state_complete set_state_complete]. rewrite Hno, andb_false_r.
    split; [ discriminate | intros (_ & Hge & _); lia ].
  - apply Z.ltb_ge in Hlt.
    assert (Hge : (mission_index m >=? 13) = true).
    { rewrite Z.geb_leb. apply Z.leb_le. lia. }
    rewrite Hge in H. cbn [andb] in H.
    cbn [_state_complete set_state_complete].
    destruct (reached_wp_destination w1) eqn:Hr.
    + destruct (wrap_u32 (millis w1 - start_time_ms m) >? 180000) eqn:Ht.
      * destruct H as [-> ->]. rewrite Hr. cbn.
        apply Z.gtb_lt in Ht. split; auto.
      * destruct H as [-> ->]. rewrite Hl, andb_false_r.
        split; [ discriminate | ].
        intros (_ & _ & Hgt). apply Z.gtb_lt in Hgt. congruence.
    + destruct H as [-> ->]. rewrite Hr. cbn [andb].
      split; [ discriminate | intros (Hf & _); discriminate ].
Qed.

(** C3, the defect.  Once [mission_completed] is set, the dwell is no
    longer enforced: a tick of [climb_return_run] past the
    disarmed-or-landed guard, with the cursor at 13 or beyond and the
    destination reached, finds that no more than 180 000 ms have elapsed
    since [start_time_ms], prints the elapsed time, and marks the phase
    complete all the same (the console output not changing the waypoint
    controller's report). *)
Theorem stage_complete_before_dwell (m : Mode) (w : W) :
  is_disarmed_or_landed w = false ->
  mission_completed m = true ->
  13 <= mission_index m ->
  let w1 := world_of (climb_return_setpoints m w) in
  let elapsed := wrap_u32 (millis w1 - start_time_ms m) in
  reached_wp_destination w1 = true ->
  elapsed <= 180000 ->
  reached_wp_destination (exec (console_printf "spinning, time is %d\n" elapsed) w1)
    = true ->
  world_of (climb_return_run m w)
    = exec (console_printf "spinning, time is %d\n" elapsed) w1 /\
  _state_complete (mode_of (climb_return_run m w)) = true.
Proof.
  intros Hd Hl Hi w1 elapsed Hr He Hp. subst elapsed.
  rewrite (climb_return_run_airborne m w Hd). fold w1.
  unfold mode_of at 1, world_of at 1. cbn [fst snd _state_complete set_state_complete].
  pose proof (waypoint_sequencer_cases m w1) as H. cbv zeta in H.
  assert (Hlt : (mission_index m <? 13) = false) by (apply Z.ltb_ge; exact Hi).
  assert (Hge : (mission_index m >=? 13) = true).
  { rewrite Z.geb_leb. apply Z.leb_le. exact Hi. }
  assert (Ht : (wrap_u32 (millis w1 - start_time_ms m) >? 180000) = false).
  { destruct (Z.gtb_spec (wrap_u32 (millis w1 - start_time_ms m)) 180000);
      [ lia | reflexivity ]. }
  rewrite Hlt, Hge, Hr, Ht in H. cbn [andb] in H. destruct H as [-> ->].
  rewrite Hp, Hl. split; reflexivity.
Qed.

(** C4, as amended.  In a tick of [climb_return_run] that passes the
    disarmed-or-landed guard and finds the destination reached: while the
    cursor is below 13 it moves to the next waypoint, which is pushed to
    the waypoint controller; once the cursor is at 13 or beyond it stays,
    no destination is pushed, and only the dwell is looked at
    ([mission_completed] is set when more than 180 000 ms have elapsed,
    otherwise the elapsed time is printed). *)
Theorem sequencer_boundary_is_13 (m : Mode) (w : W) :
  is_disarmed_or_landed w = false ->
  let w1 := world_of (climb_return_setpoints m w) in
  reached_wp_destination w1 = true ->
  let r := climb_return_run m w in
  let elapsed := wrap_u32 (millis w1 - start_time_ms m) in
  (mission_index m < 13 ->
     mission_index (mode_of r) = mission_index m + 1 /\
     world_of r =
       exec (console_printf "Mission Index: %d\n" (mission_index m + 1))
            (snd (wp_set_wp_destination
                    (wp_at (mission_wp m) (mission_index m + 1)) w1))) /\
  (13 <= mission_index m ->
     mission_index (mode_of r) = mission_index m /\
     mission_completed (mode_of r)
       = (mission_completed m || (elapsed >? 180000)) /\
     world_of r =
       if elapsed >? 180000 then w1
       else exec (console_printf "spinning, time is %d\n" elapsed) w1).
Proof.
  intros Hd w1 Hr r elapsed. subst r elapsed.
  rewrite (climb_return_run_airborne m w Hd). fold w1.
  unfold mode_of at 1 4, world_of at 1 3. cbn [fst snd].
  pose proof (waypoint_sequencer_cases m w1) as H. cbv zeta in H.
  rewrite Hr in H. rewrite !andb_true_r in H.
  split; intros Hi.
  - assert (Hlt : (mission_index m <? 13) = true) by (apply Z.ltb_lt; exact Hi).
    rewrite Hlt in H. destruct H as [-> ->]. split; reflexivity.
  - assert (Hlt : (mission_index m <? 13) = false) by (apply Z.ltb_ge; exact Hi).
    assert (Hge : (mission_index m >=? 13) = true).
    { rewrite Z.geb_leb. apply Z.leb_le. exact Hi. }
    rewrite Hlt, Hge in H.
    destruct (wrap_u32 (millis w1 - start_time_ms m) >? 180000);
      destruct H as [-> ->]; cbn; rewrite ?orb_true_r, ?orb_false_r; auto.
Qed.

(** C10, as amended.  Once [mission_completed] is set, no call of the
    controller clears it ([init] and [climb_start] in particular leave it
    as it is), and from then on a tick of [climb_return_run] past the
    disarmed-or-landed guard sets [_state_complete] to what the waypoint
    controller reports at the end of the tick, whatever the clock says.
    With the cursor at 13 or beyond, a tick that finds the destination
    reached marks the phase complete, provided the console output does
    not change the report.  With the cursor below 13 such a tick moves
    the cursor on and commands the next waypoint, and the phase is
    complete only if the controller reports that new destination reached
    too.  [return_start] leaves the cursor at 13; [climb_start] puts it
    back to 0 when the waypoint controller accepts the first waypoint. *)
Theorem mission_completed_latches (m0 : Mode) (h : list (Op * W)) (w : W) :
  mission_completed m0 = true ->
  let m := after m0 h in
  let w1 := world_of (climb_return_setpoints m w) in
  let r := climb_return_run m w in
  mission_completed m = true /\
  (forall b w', mission_completed (mode_of (init b m w')) = mission_completed m) /\
  (forall w', mission_completed (mode_of (climb_start m w')) = mission_completed m) /\
  (is_disarmed_or_landed w = false ->
     _state_complete (mode_of r) = reached_wp_destination (world_of r)) /\
  (is_disarmed_or_landed w = false ->
   13 <= mission_index m ->
   reached_wp_destination w1 = true ->
   (forall fmt z, reached_wp_destination (exec (console_printf fmt z) w1)
                  = reached_wp_destination w1) ->
     _state_complete (mode_of r) = true) /\
  (is_disarmed_or_landed w = false ->
   mission_index m < 13 ->
   reached_wp_destination w1 = true ->
     mission_index (mode_of r) = mission_index m + 1 /\
     _state_complete (mode_of r)
       = reached_wp_destination
           (exec (console_printf "Mission Index: %d\n" (mission_index m + 1))
                 (snd (wp_set_wp_destination
                         (wp_at (mission_wp m) (mission_index m + 1)) w1)))) /\
  (forall w', mission_index (mode_of (return_start m w')) = 13) /\
  (forall w',
     fst (wp_set_wp_destination (wp_at (mission_wp m) 0)
            (if negb (rtl_speed_cms (g w') =? 0)
             then exec (wp_set_speed_xy (rtl_speed_cms (g w'))) w' else w')) = true ->
     mission_index (mode_of (climb_start m w')) = 0).
Proof.
  intros H0 m w1 r.
  assert (Hm : mission_completed m = true) by (apply (after_latched h m0), H0).
  assert (Hc : is_disarmed_or_landed w = false ->
               _state_complete (mode_of r)
               = reached_wp_destination (world_of (waypoint_sequencer m w1)) /\
               world_of r = world_of (waypoint_sequencer m w1) /\
               mission_index (mode_of r) = mission_index (mode_of (waypoint_sequencer m w1))).
  { intros Hd. subst r. rewrite (climb_return_run_airborne m w Hd). fold w1.
    unfold mode_of at 1 3, world_of at 2. cbn [fst snd _state_complete set_state_complete
      mission_index].
    rewrite (waypoint_sequencer_latched m _ Hm), andb_true_r. repeat split. }
  pose proof (waypoint_sequencer_cases m w1) as H. cbv zeta in H.
  split; [ exact Hm | ].
  split; [ intros b w'; apply init_same_latch | ].
  split; [ intros w'; apply climb_start_same_latch | ].
  split; [ | split; [ | split; [ | split ] ] ].
  - intros Hd. destruct (Hc Hd) as (E1 & E2 & _). rewrite E1, E2. reflexivity.
  - intros Hd Hi Hr Hp. destruct (Hc Hd) as (E1 & _ & _). rewrite E1.
    assert (Hlt : (mission_index m <? 13) = false) by (apply Z.ltb_ge; exact Hi).
    assert (Hge : (mission_index m >=? 13) = true).
    { rewrite Z.geb_leb. apply Z.leb_le. exact Hi. }
    rewrite Hlt, Hge, Hr in H. cbn [andb] in H.
    destruct (wrap_u32 (millis w1 - start_time_ms m) >? 180000);
      destruct H as [_ ->]; [ exact Hr | rewrite Hp; exact Hr ].
  - intros Hd Hi Hr. destruct (Hc Hd) as (E1 & _ & E3). rewrite E1, E3.
    assert (Hlt : (mission_index m <? 13) = true) by (apply Z.ltb_lt; exact Hi).
    rewrite Hlt, Hr in H. cbn [andb] in H. destruct H as [-> ->].
    split; reflexivity.
  - intros w'. rewrite return_start_run. reflexivity.
  - intros w' Hok. rewrite climb_start_run, Hok. reflexivity.
Qed.

End Sequencing.

Section Machine.

Context {W : Type} {V : Vehicle W}.

(** C5.  Along every history of calls, from fields whose cursor is within
    the script, the cursor never exceeds 13, and a call never moves it
    back unless that call is the tick of [run] that enters the climb
    phase, where [climb_start] puts it at 0 (the behaviour of the same
    tick may already move it to 1). *)
Theorem mission_index_monotone_bounded (m0 : Mode) (h : list (Op * W)) (x : Op * W) :
  mission_index m0 <= 13 ->
  let m := after m0 h in
  let m' := step m x in
  mission_index m <= 13 /\
  mission_index m' <= 13 /\
  (mission_index m <= mission_index m' \/
   (enters_climb m x = true /\ 0 <= mission_index m' <= 1)).
Proof.
  intros H0 m m'.
  assert (Hm : mission_index m <= 13) by (apply after_index; exact H0).
  split; [ exact Hm | ].
  apply step_index. exact Hm.
Qed.

(** C6.  A tick of [run] that finds the LoiterAtHome phase complete ends
    in the Land phase when [rtl_path.land] is set or the radio failsafe
    is active, and in FinalDescent otherwise; and [build_path] sets
    [rtl_path.land] exactly when [g.rtl_alt_final] is not positive. *)
Theorem loiter_exit_policy (d : bool) (m : Mode) (w : W) :
  motors_armed w = true ->
  _state m = Frank_LoiterAtHome ->
  _state_complete m = true ->
  _state (mode_of (run d m w))
    = (if land (rtl_path m) || failsafe_radio w
       then Frank_Land else Frank_FinalDescent) /\
  (forall m0 w0,
     land (rtl_path (mode_of (build_path m0 w0)))
     = (rtl_alt_final (g (world_of (build_path m0 w0))) <=? 0)).
Proof.
  intros Ha Hs Hc. split; [ | intros m0 w0; apply build_path_land ].
  unfold run. rewrite bind_ask, Ha. cbn [negb].
  rewrite bind_run.
  assert (Hn : next_phase m w =
               if land (rtl_path m) || failsafe_radio w
               then land_start m w else descent_start m w).
  { unfold next_phase. rewrite bind_get, Hc, Hs, bind_ask.
    destruct (land (rtl_path m) || failsafe_radio w); reflexivity. }
  rewrite Hn.
  destruct (land (rtl_path m) || failsafe_radio w).
  - apply run_phase_land, land_start_state.
  - apply run_phase_descent, descent_start_state.
Qed.

End Machine.

(** * Rounding to binary32 *)

(** What the altitude lemmas need of [round32]: its result is a number of
    binary32 ([round32_representable]), the numbers of binary32 are left
    as they are ([round32_exact]), a number below a number of binary32
    is not rounded past it ([round32_le]), and the error is at most half
    a unit in the last place ([round32_near]). *)

Section Rounding.

Lemma pow2_pos (e : Z) : (0 < pow2 e)%Q.
Proof. apply Qpower_0_lt. reflexivity. Qed.

Lemma pow2_neq0 (e : Z) : ~ (pow2 e == 0)%Q.
Proof. intro H. pose proof (pow2_pos e) as P. rewrite H in P. discriminate P. Qed.

Lemma pow2_add (a b : Z) : (pow2 (a + b) == pow2 a * pow2 b)%Q.
Proof. apply Qpower_plus. discriminate. Qed.

Lemma pow2_le (a b : Z) : a <= b -> (pow2 a <= pow2 b)%Q.
Proof. intro H. apply Qpower_le_compat_l; [ exact H | discriminate ]. Qed.

Lemma pow2_le_inv (a b : Z) : (pow2 a <= pow2 b)%Q -> a <= b.
Proof. intro H. apply (Qpower_le_compat_l_inv 2); [ exact H | reflexivity ]. Qed.

Lemma pow2_Z (n : Z) : 0 <= n -> (pow2 n == inject_Z (2 ^ n))%Q.
Proof. intro H. unfold pow2. rewrite Zpower_Qpower by exact H. reflexivity. Qed.



Lemma rne_ge (y : Q) (z : Z) : (inject_Z z <= y)%Q -> z <= rne y.
Proof.
  intro H. apply Qfloor_resp_le in H. rewrite Qfloor_Z in H.
  unfold rne. destruct (Qcompare _ _); [ destruct (Z.even _) | | ]; lia.
Qed.

Lemma rne_le (y : Q) (z : Z) : (y <= inject_Z z)%Q -> rne y <= z.
Proof.
  intro H.
  assert (Hf : Qfloor y <= z) by (apply Qfloor_resp_le in H; rewrite Qfloor_Z in H; exact H).
  destruct (Z.eq_dec (Qfloor y) z) as [E | E].
  - assert (Hy : (y - inject_Z (Qfloor y) == 0)%Q).
    { pose proof (Qfloor_le y) as L. rewrite E in *.
      apply Qle_antisym.
      + apply (Qplus_le_l _ _ (inject_Z z)). ring_simplify. exact H.
      + apply (Qplus_le_l _ _ (inject_Z z)). ring_simplify. exact L. }
    unfold rne. rewrite Hy. simpl. exact Hf.
  - unfold rne. destruct (Qcompare _ _); [ destruct (Z.even _) | | ]; lia.
Qed.

Lemma rne_Z (y : Q) (z : Z) : (y == inject_Z z)%Q -> rne y = z.
Proof.
  intro H. apply Z.le_antisymm.
  - apply rne_le. rewrite H. apply Qle_refl.
  - apply rne_ge. rewrite H. apply Qle_refl.
Qed.

Lemma log2_bounds (n : Z) : 0 < n -> 2 ^ Z.log2 n <= n < 2 ^ (Z.log2 n + 1).
Proof. intro H. pose proof (Z.log2_spec n H). rewrite <- Z.add_1_r in *. lia. Qed.

Lemma frac_le (a b c d : Z) :
  0 < b -> 0 < d -> a * d <= c * b -> (inject_Z a / inject_Z b <= inject_Z c / inject_Z d)%Q.
Proof.
  intros Hb Hd H.
  assert (Qb : (0 < inject_Z b)%Q) by (rewrite <- (Zlt_Qlt 0); exact Hb).
  assert (Qd : (0 < inject_Z d)%Q) by (rewrite <- (Zlt_Qlt 0); exact Hd).
  apply Qle_shift_div_l; [ exact Qd | ].
  setoid_replace (inject_Z a / inject_Z b * inject_Z d)%Q
    with ((inject_Z a * inject_Z d) / inject_Z b)%Q by (field; intro E; rewrite E in Qb; discriminate Qb).
  apply Qle_shift_div_r; [ exact Qb | ].
  rewrite <- !inject_Z_mult. rewrite <- Zle_Qle. exact H.
Qed.


Lemma pow2_sub_Z (a b : Z) :
  0 <= a -> 0 <= b -> (pow2 (a - b) == inject_Z (2 ^ a) / inject_Z (2 ^ b))%Q.
Proof.
  intros Ha Hb. unfold pow2. rewrite Qpower_minus by discriminate.
  rewrite !Zpower_Qpower by assumption. reflexivity.
Qed.

Lemma Qabs_frac (x : Q) : (Qabs x == inject_Z (Z.abs (Qnum x)) / inject_Z (Z.pos (Qden x)))%Q.
Proof. destruct x as [n d]. simpl. apply Qmake_Qdiv. Qed.

Lemma ilog2_lb (x : Q) : ~ (x == 0)%Q -> (pow2 (ilog2 x) <= Qabs x)%Q.
Proof.
  intro Hx. unfold ilog2.
  set (a := Z.log2 (Z.abs (Qnum x))). set (b := Z.log2 (Z.pos (Qden x))).
  destruct (Qle_bool (pow2 (a - b)) (Qabs x)) eqn:E.
  - apply Qle_bool_iff. exact E.
  - assert (Hn : 0 < Z.abs (Qnum x)).
    { destruct x as [n d]. unfold Qeq in Hx. simpl in *. lia. }
    pose proof (log2_bounds _ Hn) as [Ln _]. fold a in Ln.
    pose proof (log2_bounds (Z.pos (Qden x)) eq_refl) as [_ Ld]. fold b in Ld.
    assert (Ha : 0 <= a) by apply Z.log2_nonneg.
    assert (Hb : 0 <= b) by apply Z.log2_nonneg.
    replace (a - b - 1) with (a - (b + 1)) by lia.
    rewrite pow2_sub_Z by lia. rewrite Qabs_frac.
    apply frac_le; [ lia | reflexivity | ].
    apply Z.mul_le_mono_nonneg; lia.
Qed.



Lemma round32_eq (x : Q) :
  ~ (x == 0)%Q ->
  let u := pow2 (Z.max (ilog2 x - 23) (-149)) in
  (round32 x == inject_Z (rne (x / u)) * u)%Q.
Proof.
  intros Hx u. unfold round32.
  destruct (Qeq_bool x 0) eqn:E.
  - apply Qeq_bool_iff in E. contradiction.
  - apply Qred_correct.
Qed.

Lemma round32_0 (x : Q) : (x == 0)%Q -> round32 x = 0%Q.
Proof. intro H. unfold round32. apply Qeq_bool_iff in H. rewrite H. reflexivity. Qed.


(** Between [x] and a representable [r] above it lies a multiple of the
    unit in the last place of [x]. *)
Lemma multiple_below (r x : Q) :
  representable r -> ~ (x == 0)%Q -> (x <= r)%Q ->
  let u := pow2 (Z.max (ilog2 x - 23) (-149)) in
  exists n : Z, (x <= inject_Z n * u)%Q /\ (inject_Z n * u <= r)%Q.
Proof.
  intros (m & k & Hm & Hk & Hr) Hx Hle u.
  set (q := Z.max (ilog2 x - 23) (-149)) in *.
  destruct (Z_le_gt_dec q k) as [Hq | Hq].
  - exists (m * 2 ^ (k - q)).
    assert (E : (inject_Z (m * 2 ^ (k - q)) * u == r)%Q).
    { rewrite inject_Z_mult, <- pow2_Z by lia. unfold u.
      rewrite <- Qmult_assoc, <- pow2_add. replace (k - q + q) with k by lia.
      symmetry. exact Hr. }
    rewrite E. split; [ exact Hle | apply Qle_refl ].
  - assert (Eq : q = ilog2 x - 23) by lia.
    set (g := pow2 (ilog2 x)).
    assert (Eg : (inject_Z (2 ^ 23) * u == g)%Q).
    { rewrite <- pow2_Z by lia. unfold u, g. rewrite <- pow2_add. rewrite Eq.
      replace (23 + (ilog2 x - 23)) with (ilog2 x) by lia. reflexivity. }
    assert (Hg : (g <= Qabs x)%Q) by (apply ilog2_lb; exact Hx).
    assert (Hrg : (Qabs r <= g)%Q).
    { rewrite Hr, Qabs_Qmult.
      rewrite (Qabs_pos (pow2 k)) by apply Qlt_le_weak, pow2_pos.
      apply Qle_trans with (inject_Z (2 ^ 24) * pow2 k)%Q.
      - apply Qmult_le_compat_r; [ | apply Qlt_le_weak, pow2_pos ].
        change (Qabs (inject_Z m)) with (inject_Z (Z.abs m)).
        rewrite <- Zle_Qle. exact Hm.
      - rewrite <- pow2_Z by lia. rewrite <- pow2_add. apply pow2_le. lia. }
    apply Qabs_Qle_condition in Hrg. destruct Hrg as [Hlo Hhi].
    destruct (Qlt_le_dec 0 x) as [Hpos | Hneg].
    + rewrite Qabs_pos in Hg by apply Qlt_le_weak, Hpos.
      exists (2 ^ 23). rewrite Eg. split.
      * apply Qle_trans with r; assumption.
      * apply Qle_trans with x; assumption.
    + rewrite Qabs_neg in Hg by exact Hneg.
      exists (- 2 ^ 23). rewrite inject_Z_opp.
      setoid_replace (- inject_Z (2 ^ 23) * u)%Q with (- g)%Q by (rewrite <- Eg; ring).
      split; [ | exact Hlo ].
      apply Qopp_le_compat in Hg. rewrite Qopp_involutive in Hg. exact Hg.
Qed.



Lemma round32_exact (r : Q) : representable r -> (round32 r == r)%Q.
Proof.
  intros Hr. destruct (Qeq_dec r 0) as [E | E].
  - rewrite (round32_0 r E). symmetry. exact E.
  - destruct (multiple_below r r Hr E (Qle_refl r)) as (n & Hn1 & Hn2).
    rewrite (round32_eq r E).
    set (u := pow2 _) in *. assert (Hu : (0 < u)%Q) by apply pow2_pos.
    assert (En : (r == inject_Z n * u)%Q) by (apply Qle_antisym; assumption).
    rewrite (rne_Z (r / u) n).
    + symmetry. exact En.
    + rewrite En. apply Qdiv_mult_l. intro Z0. rewrite Z0 in Hu. discriminate Hu.
Qed.

(** Some roundings: 0.1 is 13421773 / 2 ^ 27; above [2 ^ 24] only the
    even integers are floats, and an integer half-way goes to the one
    with the even significand; 40.3 m is 4030 cm, and 0.7 times 700 is
    490. *)
Example round32_values :
  round32 (1 # 10) = (13421773 # 134217728)%Q /\
  round32 (inject_Z 16777217) = inject_Z 16777216 /\
  round32 (inject_Z 16777219) = inject_Z 16777220 /\
  round32 (inject_Z INT32_MAX) = inject_Z 2147483648 /\
  fmul (round32 (403 # 10)) 100%Q = inject_Z 4030 /\
  fmul (round32 (7 # 10)) 700%Q = inject_Z 490.
Proof. vm_compute. repeat split. Qed.

Lemma representable_Z (z : Z) : Z.abs z <= 2 ^ 24 -> representable (inject_Z z).
Proof. intro H. exists z, 0. split; [ exact H | split; [ lia | unfold pow2; simpl; ring ] ]. Qed.

(** The integers up to [2 ^ 24] in magnitude are converted exactly. *)
Lemma float_of_int_exact (z : Z) : Z.abs z <= 2 ^ 24 -> (float_of_int z == inject_Z z)%Q.
Proof. intro H. apply round32_exact, representable_Z, H. Qed.

Lemma rne_near (y : Q) : (Qabs (inject_Z (rne y) - y) <= 1 # 2)%Q.
Proof.
  pose proof (Qfloor_le y) as Hlo. pose proof (Qlt_floor y) as Hhi.
  unfold rne. set (f := Qfloor y) in *.
  rewrite inject_Z_plus in Hhi. change (inject_Z 1) with 1%Q in Hhi.
  apply Qabs_Qle_condition.
  destruct (Qcompare (y - inject_Z f) (1 # 2)) eqn:E.
  - apply Qeq_alt in E.
    destruct (Z.even f);
      [ | rewrite inject_Z_plus; change (inject_Z 1) with 1%Q ]; split; lra.
  - apply Qlt_alt in E. split; lra.
  - apply Qgt_alt in E. rewrite inject_Z_plus. change (inject_Z 1) with 1%Q.
    split; lra.
Qed.

(** The rounding error is at most half a unit in the last place. *)
Lemma round32_near (x : Q) :
  ~ (x == 0)%Q ->
  (Qabs (round32 x - x) <= (1 # 2) * pow2 (Z.max (ilog2 x - 23) (-149)))%Q.
Proof.
  intro Hx. rewrite (round32_eq x Hx).
  set (u := pow2 _). assert (Hu : (0 < u)%Q) by apply pow2_pos.
  assert (Hu0 : ~ (u == 0)%Q) by (intro Z0; rewrite Z0 in Hu; discriminate Hu).
  setoid_replace (inject_Z (rne (x / u)) * u - x)%Q
    with ((inject_Z (rne (x / u)) - x / u) * u)%Q by (field; exact Hu0).
  rewrite Qabs_Qmult. rewrite (Qabs_pos u) by apply Qlt_le_weak, Hu.
  apply Qmult_le_compat_r; [ apply rne_near | apply Qlt_le_weak, Hu ].
Qed.




End Rounding.

(** * The return altitude *)

Section Altitude.

Context {W : Type} {V : Vehicle W}.

Lemma MAX_max (a b : Z) : MAX a b = Z.max a b.
Proof. unfold MAX. destruct (Z.gtb_spec a b); lia. Qed.

Lemma wrap_i32_small (z : Z) : in_i32 z -> wrap_i32 z = z.
Proof.
  unfold in_i32, INT32_MIN, INT32_MAX, wrap_i32. intros H.
  rewrite Z.mod_small; lia.
Qed.

Lemma trunc_le (x : Q) (a : Z) : (x <= inject_Z a)%Q -> trunc x <= a.
Proof.
  unfold Qle, trunc; simpl. intros H. rewrite Z.mul_1_r in H.
  rewrite <- (Z.quot_mul a (Z.pos (Qden x))) by discriminate.
  apply Z.quot_le_mono; [ reflexivity | exact H ].
Qed.

Lemma trunc_ge (x : Q) (a : Z) : (inject_Z a <= x)%Q -> a <= trunc x.
Proof.
  unfold Qle, trunc; simpl. intros H. rewrite Z.mul_1_r in H.
  rewrite <- (Z.quot_mul a (Z.pos (Qden x))) by discriminate.
  apply Z.quot_le_mono; [ reflexivity | exact H ].
Qed.


(** C1, as amended.  The altitude that lines 528-532 of
    [compute_return_target] raise the return target to, before the cone
    around the target, the fence and the final write are applied, is at
    least the current altitude plus the minimum climb floored at 0, and
    at least the RTL altitude floored at [RTL_ALT_MIN], provided the sum
    fits an [int32_t]. *)
Theorem raise_target_alt_lower_bounds (p : Parameters) (return_alt curr_alt : Z) :
  in_i32 (curr_alt + MAX 0 (rtl_climb_min p)) ->
  let target_alt := raise_target_alt p return_alt curr_alt in
  curr_alt + MAX 0 (rtl_climb_min p) <= target_alt /\
  MAX (rtl_altitude p) (RTL_ALT_MIN cfg) <= target_alt /\
  0 <= target_alt.
Proof.
  intros Hr. cbv zeta. unfold raise_target_alt.
  rewrite (wrap_i32_small _ Hr). rewrite !MAX_max. lia.
Qed.





End Altitude.

(** * The theorems at work on the bench *)

Import Bench Scenario.

(** The scenario of the specification: the resolver arrives at 500 cm,
    and 700 cm is what the return target holds in the end. *)
Example spec_scenario_altitudes :
  alt (return_target (rtl_path (mode_of (resolve_return_target fresh spec_scenario)))) = 500 /\
  alt (return_target (rtl_path (mode_of (compute_return_target fresh spec_scenario)))) = 700.
Proof. vm_compute. split; reflexivity. Qed.

(** With the legs flown and the destination reached, the phase is not
    complete 170 s after activation and is complete after 181 s. *)
Example dwell_at_170s_and_181s :
  _state_complete (mode_of (climb_return_run at_leg_13 (at_time 170000 true))) = false /\
  _state_complete (mode_of (climb_return_run at_leg_13 (at_time 181000 true))) = true.
Proof. vm_compute. split; reflexivity. Qed.

(** C1, counterexample.  Close to home the return target ends at 700 cm,
    below the current altitude plus the minimum climb (2000 cm) and below
    the RTL altitude (1500 cm); the cone had already brought the resolved
    altitude down to 1250 cm before the final write. *)
Lemma return_target_below_minimum_climb :
  alt (return_target (rtl_path (mode_of (compute_return_target fresh near_home))))
    < alt (current_loc near_home) + MAX 0 (rtl_climb_min (g near_home)) /\
  alt (return_target (rtl_path (mode_of (compute_return_target fresh near_home))))
    < MAX (rtl_altitude (g near_home)) (RTL_ALT_MIN cfg) /\
  alt (return_target (rtl_path (mode_of (compute_return_target fresh near_home)))) = 700 /\
  alt (current_loc near_home) + MAX 0 (rtl_climb_min (g near_home)) = 2000 /\
  MAX (rtl_altitude (g near_home)) (RTL_ALT_MIN cfg) = 1500 /\
  alt (return_target (rtl_path (mode_of (resolve_return_target fresh near_home)))) = 1250.
Proof. vm_compute. repeat split. Qed.

(** C1, instance: the scenario of the specification, where the raising
    steps arrive at 500 cm. *)
Lemma raise_target_alt_witness :
  300 + MAX 0 100 <= raise_target_alt (parameters 100 500) 0 300 /\
  MAX 500 (RTL_ALT_MIN cfg) <= raise_target_alt (parameters 100 500) 0 300 /\
  0 <= raise_target_alt (parameters 100 500) 0 300.
Proof.
  apply (@raise_target_alt_lower_bounds World vehicle (parameters 100 500) 0 300).
  vm_compute. split; discriminate.
Defined.

(** C3, the failing run.  The first activation ends its dwell and sets
    [mission_completed]; the second activation starts at 300 000 ms, and
    [init] resets [start_time_ms] but not the flag.  With the legs flown
    again and the destination reached at 301 000 ms, the tick finds the
    dwell not over (it prints the elapsed 1000 ms) and marks the phase
    complete all the same. *)
Lemma stage_complete_without_dwell :
  mission_completed after_first = true /\
  mission_completed in_second = true /\
  start_time_ms in_second = 300000 /\
  mission_index in_second = 13 /\
  is_disarmed_or_landed (at_time 301000 true) = false /\
  reached_wp_destination (at_time 301000 true) = true /\
  wrap_u32 (millis (at_time 301000 true) - start_time_ms in_second) = 1000 /\
  wrap_u32 (millis (at_time 301000 true) - start_time_ms in_second) < 180000 /\
  last (trace (world_of (climb_return_run in_second (at_time 301000 true))))
       make_safe_spool_down
    = console_printf "spinning, time is %d\n" 1000 /\
  _state_complete (mode_of (climb_return_run in_second (at_time 301000 true))) = true.
Proof. vm_compute. repeat split. Qed.

(** C3, instance: that tick of the second activation. *)
Lemma stage_complete_before_dwell_witness :
  wrap_u32 (millis (world_of (climb_return_setpoints in_second (at_time 301000 true)))
            - start_time_ms in_second) = 1000 /\
  world_of (climb_return_run in_second (at_time 301000 true))
    = exec (console_printf "spinning, time is %d\n"
              (wrap_u32
                 (millis (world_of (climb_return_setpoints in_second (at_time 301000 true)))
                  - start_time_ms in_second)))
           (world_of (climb_return_setpoints in_second (at_time 301000 true))) /\
  _state_complete (mode_of (climb_return_run in_second (at_time 301000 true))) = true.
Proof.
  split; [ vm_compute; reflexivity | ].
  apply (stage_complete_before_dwell in_second (at_time 301000 true)).
  - reflexivity.
  - reflexivity.
  - vm_compute. discriminate.
  - reflexivity.
  - vm_compute. discriminate.
  - reflexivity.
Defined.

(** X18, instance: the first activation with its legs flown, 181 s after
    activation. *)
Lemma stage_complete_witness :
  _state_complete (mode_of (climb_return_run at_leg_13 (at_time 181000 true))) = true <->
  (reached_wp_destination
     (world_of (climb_return_setpoints at_leg_13 (at_time 181000 true))) = true /\
   13 <= mission_index at_leg_13 /\
   180000 < wrap_u32
              (millis (world_of (climb_return_setpoints at_leg_13 (at_time 181000 true)))
               - start_time_ms at_leg_13)).
Proof.
  apply (stage_complete_iff_reached_and_dwell at_leg_13 (at_time 181000 true));
    reflexivity.
Defined.

(** C4, counterexample.  With the cursor at 12 and the destination
    reached, the cursor moves to 13 and waypoint 13 is pushed. *)
Lemma sequencer_advances_at_12 :
  mission_index at_leg_12 = 12 /\
  is_disarmed_or_landed (at_time 2000 true) = false /\
  reached_wp_destination
    (world_of (climb_return_setpoints at_leg_12 (at_time 2000 true))) = true /\
  mission_index (mode_of (climb_return_run at_leg_12 (at_time 2000 true))) = 13 /\
  destination (world_of (climb_return_run at_leg_12 (at_time 2000 true)))
    = wp_at (mission_wp at_leg_12) 13 /\
  last (trace (world_of (climb_return_run at_leg_12 (at_time 2000 true))))
       make_safe_spool_down
    = console_printf "Mission Index: %d\n" 13.
Proof. vm_compute. repeat split. Qed.

(** C4, instance: the cursor at 12 moves on, the cursor at 13 stays. *)
Lemma sequencer_boundary_witness :
  (mission_index at_leg_12 < 13 ->
   mission_index (mode_of (climb_return_run at_leg_12 (at_time 2000 true))) = 12 + 1) /\
  (13 <= mission_index at_leg_13 ->
   mission_index (mode_of (climb_return_run at_leg_13 (at_time 2000 true))) = 13).
Proof.
  pose proof (sequencer_boundary_is_13 at_leg_12 (at_time 2000 true)) as A.
  pose proof (sequencer_boundary_is_13 at_leg_13 (at_time 2000 true)) as B.
  cbv zeta in A, B.
  split; intros H.
  - apply A; [ reflexivity | reflexivity | exact H ].
  - apply B; [ reflexivity | reflexivity | exact H ].
Defined.

(** C5, instance: the tick that enters the climb phase of a second
    activation. *)
Lemma mission_index_witness :
  mission_index (after fresh (first_activation ++ [(OpInit false, at_time 300000 false)])) <= 13 /\
  mission_index
    (step (after fresh (first_activation ++ [(OpInit false, at_time 300000 false)]))
          (tick 300010 false)) <= 13 /\
  (mission_index (after fresh (first_activation ++ [(OpInit false, at_time 300000 false)]))
   <= mission_index
        (step (after fresh (first_activation ++ [(OpInit false, at_time 300000 false)]))
              (tick 300010 false))
   \/ (enters_climb
         (after fresh (first_activation ++ [(OpInit false, at_time 300000 false)]))
         (tick 300010 false) = true /\
       0 <= mission_index
              (step (after fresh (first_activation ++ [(OpInit false, at_time 300000 false)]))
                    (tick 300010 false)) <= 1)).
Proof.
  apply (mission_index_monotone_bounded fresh
           (first_activation ++ [(OpInit false, at_time 300000 false)])
           (tick 300010 false)).
  vm_compute. discriminate.
Defined.

(** The tick that enters the climb phase of the second activation takes
    the cursor from 13 back to 0. *)
Example cursor_reset_on_climb_entry :
  mission_index (after fresh (first_activation ++ [(OpInit false, at_time 300000 false)])) = 13 /\
  mission_index
    (step (after fresh (first_activation ++ [(OpInit false, at_time 300000 false)]))
          (tick 300010 false)) = 0.
Proof. vm_compute. split; reflexivity. Qed.

(** C6, instance: no landing requested and the radio link up, so the
    final descent is entered. *)
Lemma loiter_exit_witness :
  _state (mode_of (run false loiter_done (at_time 0 false)))
    = (if land (rtl_path loiter_done) || failsafe_radio (at_time 0 false)
       then Frank_Land else Frank_FinalDescent) /\
  (forall m0 (w0 : World),
     land (rtl_path (mode_of (build_path m0 w0)))
     = (rtl_alt_final (g (world_of (build_path m0 w0))) <=? 0)).
Proof.
  apply (loiter_exit_policy false loiter_done (at_time 0 false)); reflexivity.
Defined.

(** C10, counterexample.  In the second activation, with the flag set by
    the first and the cursor put back to 0 by [climb_start], the first
    tick that finds the destination reached moves the cursor to 1 and
    commands waypoint 1; the phase is not marked complete. *)
Lemma reached_tick_after_reactivation :
  mission_completed reactivated = true /\
  _state reactivated = Frank_InitialClimb /\
  mission_index reactivated = 0 /\
  is_disarmed_or_landed (at_time 300500 true) = false /\
  reached_wp_destination
    (world_of (climb_return_setpoints reactivated (at_time 300500 true))) = true /\
  mission_index (mode_of (climb_return_run reactivated (at_time 300500 true))) = 1 /\
  destination (world_of (climb_return_run reactivated (at_time 300500 true)))
    = wp_at (mission_wp reactivated) 1 /\
  _state_complete (mode_of (climb_return_run reactivated (at_time 300500 true))) = false /\
  _state (mode_of (run false reactivated (at_time 300500 true))) = Frank_InitialClimb.
Proof. vm_compute. repeat split. Qed.

(** C10, instances: the second activation with its legs flown, where the
    tick that finds the destination reached completes the phase 1000 ms
    after the activation; and the second activation with the cursor at
    0, where such a tick moves the cursor on. *)
Lemma mission_completed_witness :
  (mission_completed in_second = true /\
   _state_complete (mode_of (climb_return_run in_second (at_time 301000 true)))
   = reached_wp_destination (world_of (climb_return_run in_second (at_time 301000 true))) /\
   _state_complete (mode_of (climb_return_run in_second (at_time 301000 true))) = true) /\
  (mission_index (mode_of (climb_return_run reactivated (at_time 300500 true)))
   = mission_index reactivated + 1 /\
   _state_complete (mode_of (climb_return_run reactivated (at_time 300500 true)))
   = reached_wp_destination
       (exec (console_printf "Mission Index: %d\n" (mission_index reactivated + 1))
             (snd (wp_set_wp_destination
                     (wp_at (mission_wp reactivated) (mission_index reactivated + 1))
                     (world_of (climb_return_setpoints reactivated
                                                       (at_time 300500 true))))))).
Proof.
  split.
  - pose proof (mission_completed_latches after_first second_activation
                  (at_time 301000 true)) as A.
    cbv zeta in A. destruct A as (A1 & _ & _ & A4 & A5 & _ & _ & _); [ reflexivity | ].
    split; [ exact A1 | split ].
    + apply A4. reflexivity.
    + apply A5; [ reflexivity | vm_compute; discriminate | reflexivity | ].
      intros fmt z. reflexivity.
  - pose proof (mission_completed_latches after_first
                  [(OpInit false, at_time 300000 false); tick 300010 false]
                  (at_time 300500 true)) as A.
    cbv zeta in A. destruct A as (_ & _ & _ & _ & _ & A6 & _ & _); [ reflexivity | ].
    apply A6; [ reflexivity | vm_compute; reflexivity | reflexivity ].
Defined.



(** * Further properties of the controller *)

Ltac unfold_controller_all :=
  repeat progress
    (unfold climb_start, return_start, waypoint_sequencer, climb_return_run,
       next_phase, run_phase, run; unfold_handlers).

Section Phases.

Context {W : Type} {V : Vehicle W}.

Lemma no_earlier_refl m : no_earlier m m.
Proof. unfold no_earlier; lia. Qed.

Lemma no_earlier_trans a b c : no_earlier a b -> no_earlier b c -> no_earlier a c.
Proof. unfold no_earlier; lia. Qed.

Lemma same_state_or_restarted_refl m : same_state_or_restarted m m.
Proof. left; reflexivity. Qed.

Lemma same_state_or_restarted_trans a b c :
  same_state_or_restarted a b -> same_state_or_restarted b c ->
  same_state_or_restarted a c.
Proof.
  unfold same_state_or_restarted.
  intros [H|H] [H'|H']; [ left | right | right | right ]; congruence.
Qed.

Local Ltac state_leaf := solve [ reflexivity | assumption ].

Lemma climb_return_run_same_state : keeps same_state climb_return_run.
Proof.
  unfold_controller_all. keeps_all same_state_refl same_state_trans state_leaf.
Qed.

Lemma loiterathome_run_same_state : keeps same_state loiterathome_run.
Proof. unfold_handlers. keeps_all same_state_refl same_state_trans state_leaf. Qed.

Lemma build_path_same_state : keeps same_state build_path.
Proof. unfold_handlers. keeps_all same_state_refl same_state_trans state_leaf. Qed.

(** What a start function leaves after it has set the phase. *)
Lemma after_set_state (R : Mode -> Mode -> Prop) (s : Frank_State) (k : M W unit) :
  keeps R k ->
  forall m w, R (set_state s m) (mode_of (bind (modify (set_state s)) (fun _ => k) m w)).
Proof. intros H m w. rewrite bind_modify. apply H. Qed.

Lemma climb_start_state (m : Mode) (w : W) :
  _state (mode_of (climb_start m w)) = Frank_InitialClimb.
Proof.
  unfold climb_start.
  apply (after_set_state same_state Frank_InitialClimb).
  unfold_handlers. keeps_all same_state_refl same_state_trans state_leaf.
Qed.

Lemma loiterathome_start_state (m : Mode) (w : W) :
  _state (mode_of (loiterathome_start m w)) = Frank_LoiterAtHome.
Proof. reflexivity. Qed.

Lemma return_start_state (m : Mode) (w : W) :
  _state (mode_of (return_start m w)) = Frank_ReturnHome \/
  _state (mode_of (return_start m w)) = Frank_Starting.
Proof.
  unfold return_start.
  apply (after_set_state same_state_or_restarted Frank_ReturnHome).
  unfold_handlers.
  keeps_all same_state_or_restarted_refl same_state_or_restarted_trans
            ltac:(solve [ left; reflexivity | right; reflexivity | assumption ]).
Qed.

(** The behaviour of a tick keeps the phase, except that it runs Starting
    as InitialClimb. *)
Lemma run_phase_state d (m : Mode) (w : W) :
  _state (mode_of (run_phase d m w))
  = match _state m with Frank_Starting => Frank_InitialClimb | s => s end.
Proof.
  unfold run_phase. rewrite bind_get.
  destruct (_state m) eqn:Hs.
  - rewrite bind_modify.
    apply (climb_return_run_same_state (set_state Frank_InitialClimb m)).
  - rewrite <- Hs. apply climb_return_run_same_state.
  - rewrite <- Hs. apply climb_return_run_same_state.
  - rewrite <- Hs. apply loiterathome_run_same_state.
  - rewrite <- Hs. apply descent_run_same_state.
  - rewrite <- Hs. apply land_run_same_state.
Qed.

(** The phase that [next_phase] leaves. *)
Lemma next_phase_state (m : Mode) (w : W) :
  let s' := _state (mode_of (next_phase m w)) in
  if _state_complete m then
    match _state m with
    | Frank_Starting => s' = Frank_InitialClimb
    | Frank_InitialClimb => s' = Frank_ReturnHome \/ s' = Frank_Starting
    | Frank_ReturnHome => s' = Frank_LoiterAtHome
    | Frank_LoiterAtHome => s' = Frank_Land \/ s' = Frank_FinalDescent
    | Frank_FinalDescent => s' = Frank_FinalDescent
    | Frank_Land => s' = Frank_Land
    end
  else s' = _state m.
Proof.
  cbv zeta. unfold next_phase. rewrite bind_get.
  destruct (_state_complete m); [ | reflexivity ].
  destruct (_state m) eqn:Hs.
  - rewrite bind_run. apply climb_start_state.
  - apply return_start_state.
  - apply loiterathome_start_state.
  - rewrite bind_ask. destruct (land (rtl_path m) || failsafe_radio w).
    + left. apply land_start_state.
    + right. apply descent_start_state.
  - exact Hs.
  - exact Hs.
Qed.

Lemma run_no_earlier d : keeps no_earlier (run d).
Proof.
  intros m w. unfold no_earlier, run. rewrite bind_ask.
  destruct (motors_armed w); cbn [negb]; [ | unfold ret, mode_of; cbn; lia ].
  rewrite bind_run, run_phase_state.
  pose proof (next_phase_state m w) as H. cbv zeta in H.
  destruct (_state_complete m); destruct (_state m);
    repeat match goal with
           | H : _ \/ _ |- _ => destruct H
           | H : _state _ = _ |- _ => rewrite H
           end; cbn; lia.
Qed.

Lemma run_terminal d (m : Mode) (w : W) :
  _state m = Frank_FinalDescent \/ _state m = Frank_Land ->
  _state (mode_of (run d m w)) = _state m.
Proof.
  unfold run. rewrite bind_ask.
  destruct (motors_armed w); cbn [negb]; [ | intros _; reflexivity ].
  rewrite bind_run, run_phase_state.
  pose proof (next_phase_state m w) as H. cbv zeta in H.
  intros [Hs|Hs]; rewrite Hs in H |- *;
    destruct (_state_complete m); rewrite H; reflexivity.
Qed.

(** X1.  A tick of [run] never moves the phase back in the order
    Starting, InitialClimb, ReturnHome, LoiterAtHome, FinalDescent, Land;
    on an armed vehicle it never ends in Starting; and FinalDescent and
    Land are never left. *)
Theorem run_phase_progress (d : bool) (m : Mode) (w : W) :
  phase_rank (_state m) <= phase_rank (_state (mode_of (run d m w))) /\
  (motors_armed w = true -> _state (mode_of (run d m w)) <> Frank_Starting) /\
  (_state m = Frank_FinalDescent \/ _state m = Frank_Land ->
   _state (mode_of (run d m w)) = _state m).
Proof.
  split; [ apply (run_no_earlier d m w) | ].
  split; [ | apply run_terminal ].
  unfold run. rewrite bind_ask.
  intros Ha. rewrite Ha. cbn [negb].
  rewrite bind_run, run_phase_state.
  destruct (_state (mode_of (next_phase m w))); discriminate.
Qed.

Lemma fly_no_earlier (h : list (bool * W)) (m0 : Mode) : no_earlier m0 (fly m0 h).
Proof.
  unfold fly. revert m0.
  induction h as [|x h IH]; intros m0; simpl.
  - apply no_earlier_refl.
  - eapply no_earlier_trans; [ apply run_no_earlier | apply IH ].
Qed.

Lemma fly_land (h : list (bool * W)) (m0 : Mode) :
  _state m0 = Frank_Land -> _state (fly m0 h) = Frank_Land.
Proof.
  unfold fly. revert m0.
  induction h as [|x h IH]; intros m0 H0; simpl.
  - exact H0.
  - apply IH. rewrite <- H0. apply run_terminal. right; exact H0.
Qed.

(** X2.  Over a whole flight (calls of [run] only) the answers of
    [landing_gear_should_be_deployed] and of [is_landing] never go back
    from true to false. *)
Theorem landing_is_not_undone (m0 : Mode) (h : list (bool * W)) :
  (landing_gear_should_be_deployed m0 = true ->
   landing_gear_should_be_deployed (fly m0 h) = true) /\
  (is_landing m0 = true -> is_landing (fly m0 h) = true).
Proof.
  split.
  - pose proof (fly_no_earlier h m0) as H. unfold no_earlier in H.
    unfold landing_gear_should_be_deployed.
    destruct (_state m0); try discriminate; intros _;
      destruct (_state (fly m0 h)); cbn in H; solve [ reflexivity | lia ].
  - unfold is_landing. intros H.
    rewrite fly_land; [ reflexivity | ].
    destruct (_state m0); try discriminate; reflexivity.
Qed.

End Phases.

Section Handlers.

Context {W : Type} {V : Vehicle W}.

Local Ltac frame_leaf := solve [ reflexivity | assumption ].

Lemma pilot_yaw_input_unchanged : keeps unchanged pilot_yaw_input.
Proof. unfold_handlers. keeps_all unchanged_refl unchanged_trans frame_leaf. Qed.

Lemma run_wp_controllers_unchanged t : keeps unchanged (run_wp_controllers t).
Proof. unfold_handlers. keeps_all unchanged_refl unchanged_trans frame_leaf. Qed.

Lemma descent_pilot_input_unchanged : keeps unchanged descent_pilot_input.
Proof. unfold_handlers. keeps_all unchanged_refl unchanged_trans frame_leaf. Qed.

Lemma loiterathome_run_grounded (m : Mode) (w : W) :
  is_disarmed_or_landed w = true ->
  loiterathome_run m w = (tt, m, exec make_safe_spool_down w).
Proof. intros Hd. unfold loiterathome_run. rewrite bind_ask, Hd. reflexivity. Qed.

Lemma descent_run_grounded (m : Mode) (w : W) :
  is_disarmed_or_landed w = true ->
  descent_run m w = (tt, m, exec make_safe_spool_down w).
Proof. intros Hd. unfold descent_run. rewrite bind_ask, Hd. reflexivity. Qed.

(** X3.  Ticks that leave the fields alone.  On a vehicle that is not
    armed [run] does nothing at all.  On an armed vehicle that is disarmed
    or landed, in a phase that is not complete and is not Land, the tick
    only spools the motors down: no field changes (but Starting, which is
    run as InitialClimb) and no other collaborator is called. *)
Theorem idle_ticks (d : bool) (m : Mode) (w : W) :
  (motors_armed w = false -> run d m w = (tt, m, w)) /\
  (motors_armed w = true ->
   is_disarmed_or_landed w = true ->
   _state_complete m = false ->
   _state m <> Frank_Land ->
   run d m w =
     (tt,
      match _state m with
      | Frank_Starting => set_state Frank_InitialClimb m
      | _ => m
      end,
      exec make_safe_spool_down w)).
Proof.
  split.
  - intros Ha. unfold run. rewrite bind_ask, Ha. reflexivity.
  - intros Ha Hd Hc Hl. unfold run. rewrite bind_ask, Ha. cbn [negb].
    assert (Hn : next_phase m w = (tt, m, w)).
    { unfold next_phase. rewrite bind_get, Hc. reflexivity. }
    rewrite bind_run, Hn.
    unfold value_of, mode_of, world_of; cbn [fst snd].
    unfold run_phase. rewrite bind_get.
    destruct (_state m).
    + rewrite bind_modify. apply climb_return_run_grounded, Hd.
    + apply climb_return_run_grounded, Hd.
    + apply climb_return_run_grounded, Hd.
    + apply loiterathome_run_grounded, Hd.
    + apply descent_run_grounded, Hd.
    + contradiction Hl; reflexivity.
Qed.

(** The loiter past the guard: the completion test on the fields as they
    were and the collaborators as the controllers left them. *)
Lemma loiterathome_run_airborne (m : Mode) (w : W) :
  is_disarmed_or_landed w = false ->
  let w1 := world_of (pilot_yaw_input m w) in
  let w2 := world_of (run_wp_controllers (value_of (pilot_yaw_input m w)) m w1) in
  loiterathome_run m w =
    (tt,
     (if wrap_u32 (millis w2 - _loiter_start_time m) >=? wrap_u32 (rtl_loiter_time (g w2))
      then match auto_yaw_mode w2 with
           | AUTO_YAW_RESETTOARMEDYAW =>
               if Z.abs (wrap_180_cd (wrap_i32 (ahrs_yaw_sensor w2 - initial_armed_bearing w2)))
                  <=? 200
               then set_state_complete true m else m
           | _ => set_state_complete true m
           end
      else m),
     w2).
Proof.
  intros Hd. cbv zeta. unfold loiterathome_run.
  rewrite bind_ask, Hd.
  rewrite bind_run.
  pose proof (pilot_yaw_input_unchanged m w) as H1. unfold unchanged in H1. rewrite H1.
  rewrite bind_run.
  pose proof (run_wp_controllers_unchanged (value_of (pilot_yaw_input m w)) m
                (world_of (pilot_yaw_input m w))) as H2.
  unfold unchanged in H2. rewrite H2.
  set (w2 := world_of (run_wp_controllers _ m _)).
  rewrite !bind_ask, bind_get.
  destruct (wrap_u32 (millis w2 - _loiter_start_time m) >=? wrap_u32 (rtl_loiter_time (g w2)));
    [ | reflexivity ].
  rewrite bind_ask.
  destruct (auto_yaw_mode w2); try reflexivity.
  rewrite !bind_ask.
  destruct (Z.abs (wrap_180_cd (wrap_i32 (ahrs_yaw_sensor w2 - initial_armed_bearing w2))) <=? 200);
    reflexivity.
Qed.

(** X4.  [loiterathome_run] never clears the completion flag, and it
    sets it only past the disarmed-or-landed guard, once the clock is at
    least [g.rtl_loiter_time] past [_loiter_start_time] (on 32 bits) and,
    when the yaw is being reset to the armed heading, the heading is
    within 200 centidegrees of it. *)
Theorem loiter_completes_after_loiter_time (m : Mode) (w : W) :
  let r := loiterathome_run m w in
  (_state_complete m = true -> _state_complete (mode_of r) = true) /\
  (_state_complete m = false ->
   _state_complete (mode_of r) = true ->
   is_disarmed_or_landed w = false /\
   wrap_u32 (rtl_loiter_time (g (world_of r)))
     <= wrap_u32 (millis (world_of r) - _loiter_start_time m) /\
   (auto_yaw_mode (world_of r) = AUTO_YAW_RESETTOARMEDYAW ->
    Z.abs (wrap_180_cd (wrap_i32 (ahrs_yaw_sensor (world_of r)
                                  - initial_armed_bearing (world_of r)))) <= 200)).
Proof.
  cbv zeta. destruct (is_disarmed_or_landed w) eqn:Hd.
  - rewrite (loiterathome_run_grounded m w Hd). unfold mode_of; cbn [fst snd].
    split; [ auto | intros H0 H1; congruence ].
  - rewrite (loiterathome_run_airborne m w Hd).
    set (w2 := world_of (run_wp_controllers _ m _)).
    unfold mode_of, world_of; cbn [fst snd].
    destruct (wrap_u32 (millis w2 - _loiter_start_time m)
              >=? wrap_u32 (rtl_loiter_time (g w2))) eqn:Ht.
    + rewrite Z.geb_leb in Ht. apply Z.leb_le in Ht.
      destruct (auto_yaw_mode w2) eqn:Hy;
        try (split; [ auto | intros _ _; repeat split; [ exact Ht | discriminate ] ]).
      destruct (Z.abs (wrap_180_cd (wrap_i32 (ahrs_yaw_sensor w2 - initial_armed_bearing w2)))
                <=? 200) eqn:Hh.
      * apply Z.leb_le in Hh.
        split; [ auto | intros _ _; repeat split; [ exact Ht | intros _; exact Hh ] ].
      * split; [ auto | intros H0 H1; congruence ].
    + split; [ auto | intros H0 H1; congruence ].
Qed.

(** X5.  Past the disarmed-or-landed guard, [descent_run] marks the
    phase complete exactly when the current altitude is within 20 cm of
    the descent target's, and changes no other field. *)
Theorem descent_completes_within_20cm (m : Mode) (w : W) :
  is_disarmed_or_landed w = false ->
  let r := descent_run m w in
  mode_of r =
    set_state_complete
      (Z.abs (wrap_i32 (alt (descent_target (rtl_path m))
                        - alt (current_loc (world_of r)))) <? 20) m.
Proof.
  intros Hd. cbv zeta. unfold descent_run. rewrite bind_ask, Hd.
  rewrite bind_run.
  pose proof (descent_pilot_input_unchanged m w) as H1. unfold unchanged in H1.
  rewrite H1.
  destruct (value_of (descent_pilot_input m w)) as [[tr tp] ty].
  reflexivity.
Qed.

End Handlers.

Section EntryAndFailure.

Context {W : Type} {V : Vehicle W}.

Lemma same_plan_refl m : same_plan m m.
Proof. unfold same_plan; auto. Qed.

Lemma same_plan_trans a b c : same_plan a b -> same_plan b c -> same_plan a c.
Proof.
  unfold same_plan.
  intros (A1 & A2 & A3 & A4 & A5) (B1 & B2 & B3 & B4 & B5).
  repeat split; congruence.
Qed.

Local Ltac plan_leaf :=
  solve [ unfold same_plan; cbn; auto | assumption ].

Lemma climb_return_run_same_plan : keeps same_plan climb_return_run.
Proof.
  unfold_controller_all. keeps_all same_plan_refl same_plan_trans plan_leaf.
Qed.

Lemma init_same_plan_but_activation (b : bool) (m : Mode) (w : W) :
  let m' := mode_of (init b m w) in
  mission_index m' = mission_index m /\
  mission_completed m' = mission_completed m /\
  mission_wp m' = mission_wp m /\
  rtl_path m' = rtl_path m /\
  _loiter_start_time m' = _loiter_start_time m.
Proof.
  cbv zeta. unfold init, init_body.
  destruct b; cbn [negb]; [ repeat split | ].
  rewrite bind_ask. destruct (ahrs_home_is_set w); repeat split.
Qed.

(** X6.  [init] touches only the activation fields.  A failed [init]
    has no effect at all: no field has changed and no collaborator was
    called.  A successful one leaves the cursor, the latch, the waypoint
    list, the path and the loiter timer as they were: the path of an
    earlier activation stays until the first tick rebuilds it. *)
Theorem init_touches_only_activation_fields (ignore_checks : bool) (m : Mode) (w : W) :
  let r := init ignore_checks m w in
  (value_of r = false -> r = (false, m, w)) /\
  mission_index (mode_of r) = mission_index m /\
  mission_completed (mode_of r) = mission_completed m /\
  mission_wp (mode_of r) = mission_wp m /\
  rtl_path (mode_of r) = rtl_path m /\
  _loiter_start_time (mode_of r) = _loiter_start_time m.
Proof.
  cbv zeta. split; [ | apply init_same_plan_but_activation ].
  unfold init, init_body.
  destruct ignore_checks; cbn [negb].
  - discriminate.
  - rewrite bind_ask. destruct (ahrs_home_is_set w); cbn [negb].
    + discriminate.
    + reflexivity.
Qed.

(** X7.  [climb_start] always leaves the phase InitialClimb and not
    complete.  It puts the cursor at 0 exactly when the waypoint
    controller accepts [mission_wp[0]]; when the destination is refused
    the cursor is left where it was, and nothing else in the fields
    changes either way. *)
Theorem climb_start_outcome (m : Mode) (w : W) :
  let w1 := if negb (rtl_speed_cms (g w) =? 0)
            then exec (wp_set_speed_xy (rtl_speed_cms (g w))) w else w in
  let accepted := fst (wp_set_wp_destination (wp_at (mission_wp m) 0) w1) in
  let m' := mode_of (climb_start m w) in
  _state m' = Frank_InitialClimb /\
  _state_complete m' = false /\
  mission_index m' = (if accepted then 0 else mission_index m) /\
  same_plan m m' /\
  mission_completed m' = mission_completed m.
Proof.
  cbv zeta. rewrite climb_start_run.
  destruct (fst (wp_set_wp_destination _ _)); unfold same_plan; cbn; auto 10.
Qed.

(** X8.  The tick of [run] that finds InitialClimb complete on an armed
    vehicle, when the waypoint controller refuses [mission_wp[12]] on a
    path that uses terrain altitudes: the restart is absorbed within the
    tick.  The tick ends in InitialClimb with the cursor at 13 and terrain
    following forbidden, and the path and the waypoint list are the ones
    built before: [build_path] is not run again. *)
Theorem refused_return_restarts_the_climb (d : bool) (m : Mode) (w : W) :
  motors_armed w = true ->
  _state m = Frank_InitialClimb ->
  _state_complete m = true ->
  terrain_used (rtl_path m) = true ->
  fst (wp_set_wp_destination (wp_at (mission_wp m) 12) w) = false ->
  let m' := mode_of (run d m w) in
  _state m' = Frank_InitialClimb /\
  mission_index m' = 13 /\
  terrain_following_allowed m' = false /\
  rtl_path m' = rtl_path m /\
  mission_wp m' = mission_wp m.
Proof.
  intros Ha Hs Hc Ht Hr. cbv zeta.
  unfold run. rewrite bind_ask, Ha. cbn [negb].
  rewrite bind_run.
  assert (Hn : mode_of (next_phase m w) = mode_of (return_start m w)).
  { unfold next_phase. rewrite bind_get, Hc, Hs. reflexivity. }
  rewrite Hn, return_start_run, Hr, Ht. cbn [negb andb].
  set (m1 := set_mission_index 13 _).
  set (w1 := world_of (next_phase m w)).
  unfold run_phase. rewrite bind_get.
  cbn [_state m1 set_mission_index set_state_complete set_state
       set_terrain_following_allowed]. rewrite bind_modify.
  set (m2 := set_state Frank_InitialClimb m1).
  pose proof (climb_return_run_same_state m2 w1) as S.
  pose proof (climb_return_run_same_plan m2 w1) as (P1 & _ & _ & P4 & P5).
  pose proof (climb_return_run_advanced m2 w1) as A.
  unfold same_state in S. unfold advanced in A.
  rewrite S, P1, P4, P5. cbn in A |- *.
  repeat split. lia.
Qed.

(** X9.  The dwell is measured on the 32-bit clock and survives its
    wrap-around: with the cursor at 13 or beyond and the destination
    reached, if the clock reads [e] ms past [start_time_ms] modulo 2^32,
    for any [e] above 180 000 and below 2^32, the sequencer sets
    [mission_completed]. *)
Theorem dwell_survives_clock_wrap (m : Mode) (w : W) (e : Z) :
  13 <= mission_index m ->
  reached_wp_destination w = true ->
  0 <= start_time_ms m < 4294967296 ->
  180000 < e < 4294967296 ->
  millis w = (start_time_ms m + e) mod 4294967296 ->
  mission_completed (mode_of (waypoint_sequencer m w)) = true.
Proof.
  intros Hi Hr Hs He Hm.
  pose proof (waypoint_sequencer_cases m w) as H. cbv zeta in H.
  assert (Hlt : (mission_index m <? 13) = false) by (apply Z.ltb_ge; exact Hi).
  assert (Hge : (mission_index m >=? 13) = true).
  { rewrite Z.geb_leb. apply Z.leb_le. exact Hi. }
  assert (Hel : wrap_u32 (millis w - start_time_ms m) = e).
  { unfold wrap_u32. rewrite Hm.
    rewrite Zminus_mod_idemp_l.
    replace (start_time_ms m + e - start_time_ms m) with e by lia.
    apply Z.mod_small. lia. }
  rewrite Hlt, Hge, Hr, Hel in H. cbn [andb] in H.
  assert (Hgt : (e >? 180000) = true) by (apply Z.gtb_lt; lia).
  rewrite Hgt in H. destruct H as [-> _]. reflexivity.
Qed.

End EntryAndFailure.

Section ReturnTarget.

Context {W : Type} {V : Vehicle W}.

Lemma fMAX_ge_l (a b : Q) : (a <= fMAX a b)%Q.
Proof.
  unfold fMAX, fgt. destruct (Qle_bool a b) eqn:H; cbn.
  - apply Qle_bool_iff, H.
  - apply Qle_refl.
Qed.

Lemma fMAX_le (a b c : Q) : (a <= c)%Q -> (b <= c)%Q -> (fMAX a b <= c)%Q.
Proof. unfold fMAX. destruct (fgt a b); auto. Qed.

Lemma fMIN_le_l (a b : Q) : (fMIN a b <= a)%Q.
Proof.
  unfold fMIN, flt. destruct (Qle_bool b a) eqn:H; cbn.
  - apply Qle_bool_iff, H.
  - apply Qle_refl.
Qed.

Lemma inject_Z_le (a b : Z) : a <= b -> (inject_Z a <= inject_Z b)%Q.
Proof. intros H. rewrite <- Zle_Qle. exact H. Qed.

(** X10.  The cone around the return target, lines 537-540, for a
    current and a target altitude that [float] holds exactly (as it does
    every altitude up to [2 ^ 24] cm in magnitude, see
    [float_of_int_exact]).  When the configured slope reaches
    [RTL_MIN_CONE_SLOPE] the clamped altitude is never below the current
    altitude and never above the larger of the current and the target
    altitude; so it never raises a target that is above the vehicle.
    Below that slope the target is left as it is. *)
Theorem cone_slope_clamp_bounds (p : Parameters) (dist : float) (curr_alt target_alt : Z) :
  in_i32 curr_alt ->
  in_i32 target_alt ->
  (float_of_int curr_alt == inject_Z curr_alt)%Q ->
  (float_of_int target_alt == inject_Z target_alt)%Q ->
  let r := cone_slope_clamp p dist curr_alt target_alt in
  (fge (rtl_cone_slope p) (RTL_MIN_CONE_SLOPE cfg) = true ->
   curr_alt <= r <= MAX curr_alt target_alt) /\
  (fge (rtl_cone_slope p) (RTL_MIN_CONE_SLOPE cfg) = false -> r = target_alt).
Proof.
  intros Hc Ht Ec Et. cbv zeta. unfold cone_slope_clamp.
  destruct (fge (rtl_cone_slope p) (RTL_MIN_CONE_SLOPE cfg));
    (split; [ | intros H; try discriminate; reflexivity ]); [ | discriminate ].
  intros _. unfold int32_of_float.
  set (x := fMAX (float_of_int curr_alt) _).
  assert (Hlo : (inject_Z curr_alt <= x)%Q).
  { rewrite <- Ec. apply fMAX_ge_l. }
  assert (Hhi : (x <= inject_Z (MAX curr_alt target_alt))%Q).
  { apply fMAX_le.
    - rewrite Ec. apply inject_Z_le. rewrite MAX_max. lia.
    - eapply Qle_trans; [ apply fMIN_le_l | ].
      rewrite Et. apply inject_Z_le. rewrite MAX_max. lia. }
  pose proof (trunc_ge x curr_alt Hlo) as H1.
  pose proof (trunc_le x _ Hhi) as H2.
  rewrite MAX_max in *.
  rewrite wrap_i32_small; [ lia | ].
  unfold in_i32 in *. lia.
Qed.

Lemma with_alt_same (l : Location) : with_alt (alt l) l = l.
Proof. destruct l; reflexivity. Qed.

Lemma upd_return_target_same (m : Mode) :
  upd_rtl_path (fun p => set_return_target (return_target p) p) m = m.
Proof. destruct m as [? ? ? ? ? ? ? ? []]; reflexivity. Qed.

(** X11.  The fence step calls no collaborator command and changes
    nothing but the altitude of the return target: its position and
    frame, the rest of the path and every other field are as before. *)
Theorem fence_clamp_frame (m : Mode) (w : W) :
  let r := fence_clamp m w in
  world_of r = w /\
  mode_of r =
    upd_rtl_path
      (fun p => set_return_target
                  (with_alt (alt (return_target (rtl_path (mode_of r)))) (return_target p)) p)
      m.
Proof.
  cbv zeta.
  assert (Hsame : (tt, m, w) = fence_clamp m w ->
                  world_of (fence_clamp m w) = w /\
                  mode_of (fence_clamp m w) =
                    upd_rtl_path
                      (fun p => set_return_target
                         (with_alt (alt (return_target (rtl_path (mode_of (fence_clamp m w)))))
                                   (return_target p)) p) m).
  { intros <-. unfold world_of, mode_of; cbn [fst snd]. split; [ reflexivity | ].
    unfold upd_rtl_path. rewrite with_alt_same.
    symmetry. apply upd_return_target_same. }
  unfold fence_clamp, when in *.
  destruct (AC_FENCE cfg); [ | apply Hsame; reflexivity ].
  rewrite bind_ask in *.
  destruct (negb (Z.land (fence_get_enabled_fences w) (AC_FENCE_TYPE_ALT_MAX cfg) =? 0));
    [ | apply Hsame; reflexivity ].
  rewrite bind_get, bind_ask in *.
  destruct (get_alt_cm w (return_target (rtl_path m)) ABOVE_HOME) as [t|];
    [ | apply Hsame; reflexivity ].
  rewrite bind_ask in *.
  destruct (fgt (float_of_int t) (fmul (fence_get_safe_alt_max w) 100%Q));
    [ | apply Hsame; reflexivity ].
  clear Hsame. split; reflexivity.
Qed.

Lemma same_but_return_target_refl m : same_but_return_target m m.
Proof. unfold same_but_return_target; auto 15. Qed.

Lemma same_but_return_target_trans a b c :
  same_but_return_target a b -> same_but_return_target b c ->
  same_but_return_target a c.
Proof.
  unfold same_but_return_target.
  intros (A1 & A2 & A3 & A4 & A5 & A6 & A7 & A8 & A9 & A10 & A11 & A12)
         (B1 & B2 & B3 & B4 & B5 & B6 & B7 & B8 & B9 & B10 & B11 & B12).
  repeat split; congruence.
Qed.

Lemma same_machine_refl m : same_machine m m.
Proof. unfold same_machine; auto 10. Qed.

Lemma same_machine_trans a b c : same_machine a b -> same_machine b c -> same_machine a c.
Proof.
  unfold same_machine.
  intros (A1 & A2 & A3 & A4 & A5 & A6 & A7) (B1 & B2 & B3 & B4 & B5 & B6 & B7).
  repeat split; congruence.
Qed.

Lemma compute_return_target_same_but_return_target :
  keeps same_but_return_target compute_return_target.
Proof.
  unfold_handlers.
  keeps_all same_but_return_target_refl same_but_return_target_trans
            ltac:(solve [ unfold same_but_return_target; cbn; auto 15 | assumption ]).
Qed.

Lemma build_path_same_machine : keeps same_machine build_path.
Proof.
  unfold_handlers.
  keeps_all same_machine_refl same_machine_trans
            ltac:(solve [ unfold same_machine; cbn; auto 10 | assumption ]).
Qed.

(** X12.  [compute_return_target] writes the return target and
    [terrain_used] and nothing else: the phase, the completion flag, the
    timers, the cursor, the latch, the waypoint list and the other
    targets of the path are untouched.  [build_path], which calls it,
    leaves the state machine's own fields (phase, completion flag,
    terrain permission, timers, cursor, latch) untouched. *)
Theorem path_building_frame (m : Mode) (w : W) :
  same_but_return_target m (mode_of (compute_return_target m w)) /\
  same_machine m (mode_of (build_path m w)).
Proof.
  split.
  - apply compute_return_target_same_but_return_target.
  - apply build_path_same_machine.
Qed.

End ReturnTarget.

Section TerrainChoice.

Context {W : Type} {V : Vehicle W}.

Lemma same_terrain_used_refl m : same_terrain_used m m.
Proof. reflexivity. Qed.

Lemma same_terrain_used_trans a b c :
  same_terrain_used a b -> same_terrain_used b c -> same_terrain_used a c.
Proof. unfold same_terrain_used; congruence. Qed.

Lemma fence_clamp_same_terrain_used : keeps same_terrain_used fence_clamp.
Proof.
  unfold fence_clamp.
  keeps_all same_terrain_used_refl same_terrain_used_trans
            ltac:(solve [ reflexivity | assumption ]).
Qed.

(** After a computation, a continuation that keeps [R] leaves the fields
    related to what the computation left. *)
Lemma keeps_after {A B} (R : Mode -> Mode -> Prop) (c : M W A) (k : A -> M W B)
    (m : Mode) (w : W) :
  (forall a, keeps R (k a)) -> R (mode_of (c m w)) (mode_of (bind c k m w)).
Proof. intros H. rewrite bind_run. apply H. Qed.

Lemma mode_of_ask {A} (q : W -> A) (m : Mode) (w : W) : mode_of (ask q m w) = m.
Proof. reflexivity. Qed.

(** The terrain lookups keep [terrain_used] only when all three succeed,
    and then they have called nothing. *)
Lemma terrain_lookups_run (c : Z) (m : Mode) (w : W) :
  let r := terrain_lookups c m w in
  let found :=
    is_some (get_alt_cm w (origin_point (rtl_path m)) ABOVE_TERRAIN) &&
    is_some (get_alt_cm w (return_target (rtl_path m)) ABOVE_TERRAIN) &&
    is_some (get_alt_cm w (current_loc w) ABOVE_TERRAIN) in
  terrain_used (rtl_path (mode_of r)) = terrain_used (rtl_path m) && found /\
  return_target (rtl_path (mode_of r)) = return_target (rtl_path m) /\
  (terrain_used (rtl_path (mode_of r)) = true -> world_of r = w).
Proof.
  cbv zeta. unfold terrain_lookups, terrain_data_missing. rewrite bind_get.
  assert (Hmiss : forall (c' : Z) (w' : W),
            let r := bind (bind (modify (upd_rtl_path (set_terrain_used false)))
                                (fun _ => call (logger_Write_Error TERRAIN MISSING_TERRAIN_DATA)))
                          (fun _ => ret c') m w' in
            terrain_used (rtl_path (mode_of r)) = false /\
            return_target (rtl_path (mode_of r)) = return_target (rtl_path m) /\
            (terrain_used (rtl_path (mode_of r)) = true -> world_of r = w)).
  { intros c' w'. cbn. repeat split. discriminate. }
  destruct (terrain_used (rtl_path m)) eqn:Hu; cbn [andb].
  - rewrite bind_ask.
    destruct (get_alt_cm w (origin_point (rtl_path m)) ABOVE_TERRAIN);
      cbn [is_some andb]; [ | apply Hmiss ].
    rewrite bind_ask.
    destruct (get_alt_cm w (return_target (rtl_path m)) ABOVE_TERRAIN);
      cbn [is_some andb]; [ | apply Hmiss ].
    rewrite bind_ask.
    destruct (get_alt_cm w (current_loc w) ABOVE_TERRAIN);
      cbn [is_some andb]; [ | apply Hmiss ].
    repeat split; assumption.
  - split; [ exact Hu | split; [ reflexivity | ] ].
    unfold ret, mode_of; cbn [fst snd]. congruence.
Qed.

Lemma convert_return_target_frame_run (m : Mode) (w : W) :
  terrain_used (rtl_path (mode_of (convert_return_target_frame m w)))
  = terrain_used (rtl_path m)
    && is_some (change_alt_frame w (return_target (rtl_path m)) ABOVE_TERRAIN).
Proof.
  unfold convert_return_target_frame, return_target_change_alt_frame, and_then.
  rewrite bind_get.
  destruct (terrain_used (rtl_path m)) eqn:Hu; cbn [andb].
  - run_m. destruct (change_alt_frame w (return_target (rtl_path m)) ABOVE_TERRAIN);
      cbn; [ exact Hu | ].
    destruct (change_alt_frame w (return_target (rtl_path m)) ABOVE_HOME); reflexivity.
  - run_m. cbn.
    destruct (change_alt_frame w (return_target (rtl_path m)) ABOVE_HOME); reflexivity.
Qed.

Lemma compute_return_target_terrain_used (m : Mode) (w : W) :
  terrain_used (rtl_path (mode_of (compute_return_target m w))) =
    terrain_use w && terrain_following_allowed m &&
    is_some (get_alt_cm w (origin_point (rtl_path m)) ABOVE_TERRAIN) &&
    is_some (get_alt_cm w (return_point w) ABOVE_TERRAIN) &&
    is_some (get_alt_cm w (current_loc w) ABOVE_TERRAIN) &&
    is_some (change_alt_frame w (return_point w) ABOVE_TERRAIN).
Proof.
  unfold compute_return_target.
  rewrite (keeps_after same_terrain_used)
    by (intro; apply keeps_modify; intro; reflexivity).
  unfold resolve_return_target.
  rewrite bind_ask, bind_modify, !bind_ask, bind_get, bind_modify.
  fold (return_point w).
  set (m1 := upd_rtl_path (set_terrain_used _) _).
  rewrite bind_run.
  pose proof (terrain_lookups_run (alt (current_loc w)) m1 w) as (L1 & L2 & L3).
  set (r1 := terrain_lookups (alt (current_loc w)) m1 w) in *.
  rewrite bind_run.
  rewrite (keeps_after same_terrain_used).
  2:{ intro. keeps_all same_terrain_used_refl same_terrain_used_trans
               ltac:(solve [ reflexivity | assumption
                           | apply fence_clamp_same_terrain_used ]). }
  rewrite mode_of_ask, convert_return_target_frame_run, L2.
  subst m1.
  cbn [rtl_path upd_rtl_path set_rtl_path set_terrain_used set_return_target
       terrain_used origin_point return_target terrain_following_allowed] in L1, L2 |- *.
  set (a := terrain_use w) in *.
  set (b := terrain_following_allowed m) in *.
  set (o := is_some (get_alt_cm w (origin_point (rtl_path m)) ABOVE_TERRAIN)) in *.
  set (t := is_some (get_alt_cm w (return_point w) ABOVE_TERRAIN)) in *.
  set (c := is_some (get_alt_cm w (current_loc w) ABOVE_TERRAIN)) in *.
  destruct (terrain_used (rtl_path (mode_of r1))) eqn:Hu.
  - rewrite (L3 eq_refl).
    destruct a, b, o, t, c; cbn in L1 |- *; solve [ discriminate | reflexivity ].
  - destruct a, b, o, t, c; cbn in L1 |- *; solve [ discriminate | reflexivity ].
Qed.

(** X13.  [compute_return_target] ends with [terrain_used] set exactly
    when terrain altitudes are in use on the vehicle, terrain following
    is allowed for this activation, the three terrain lookups (origin,
    return point, current location) succeed and the return point can be
    moved to the above-terrain frame.  In particular a controller whose
    [terrain_following_allowed] is false never builds a terrain path. *)
Theorem terrain_used_exactly_when (m : Mode) (w : W) :
  terrain_used (rtl_path (mode_of (compute_return_target m w))) =
    terrain_use w && terrain_following_allowed m &&
    is_some (get_alt_cm w (origin_point (rtl_path m)) ABOVE_TERRAIN) &&
    is_some (get_alt_cm w (return_point w) ABOVE_TERRAIN) &&
    is_some (get_alt_cm w (current_loc w) ABOVE_TERRAIN) &&
    is_some (change_alt_frame w (return_point w) ABOVE_TERRAIN).
Proof. apply compute_return_target_terrain_used. Qed.

Lemma build_path_terrain_used (m : Mode) (w : W) :
  terrain_following_allowed m = false ->
  terrain_used (rtl_path (mode_of (build_path m w))) = false.
Proof.
  intros Hf. unfold build_path.
  rewrite !bind_ask, bind_modify, bind_ask.
  rewrite bind_run.
  set (c0 := match change_alt_frame w _ ABOVE_HOME with Some _ => _ | None => _ end).
  set (m1 := mode_of (c0 _ w)). set (w1 := world_of (c0 _ w)).
  assert (H1 : terrain_following_allowed m1 = false).
  { subst m1 c0. destruct (change_alt_frame w _ ABOVE_HOME); exact Hf. }
  rewrite (keeps_after same_terrain_used).
  2:{ intro. keeps_all same_terrain_used_refl same_terrain_used_trans
               ltac:(solve [ reflexivity | assumption ]). }
  rewrite compute_return_target_terrain_used, H1, andb_false_r. reflexivity.
Qed.

Lemma climb_start_same_plan : keeps same_plan climb_start.
Proof.
  intros m w. rewrite climb_start_run.
  destruct (fst (wp_set_wp_destination _ _)); unfold same_plan; cbn; auto.
Qed.

(** X17.  After [restart_without_terrain] on a path that used terrain
    altitudes, the next tick of [run] on an armed vehicle builds the path
    anew: it ends in InitialClimb, terrain following stays forbidden and
    the new path does not use terrain altitudes, whatever terrain data
    the vehicle has by then. *)
Theorem restart_rebuilds_without_terrain (d : bool) (m : Mode) (w0 w : W) :
  terrain_used (rtl_path m) = true ->
  motors_armed w = true ->
  let m' := mode_of (run d (mode_of (restart_without_terrain m w0)) w) in
  _state m' = Frank_InitialClimb /\
  terrain_following_allowed m' = false /\
  terrain_used (rtl_path m') = false.
Proof.
  intros Ht Ha. cbv zeta.
  assert (Hr : mode_of (restart_without_terrain m w0)
               = set_state_complete true
                   (set_state Frank_Starting (set_terrain_following_allowed false m))).
  { unfold restart_without_terrain. run_m. cbn. rewrite Ht. reflexivity. }
  rewrite Hr. set (m0 := set_state_complete true _).
  unfold run. rewrite bind_ask, Ha. cbn [negb].
  rewrite bind_run.
  assert (Hn : next_phase m0 w = bind build_path (fun _ => climb_start) m0 w)
    by reflexivity.
  rewrite Hn. rewrite (bind_run build_path).
  set (mb := mode_of (build_path m0 w)). set (wb := world_of (build_path m0 w)).
  pose proof (build_path_terrain_used m0 w eq_refl) as Hb. fold mb in Hb.
  pose proof (build_path_same_machine m0 w) as (_ & _ & Hb3 & _). fold mb in Hb3.
  pose proof (climb_start_state mb wb) as Hc1.
  pose proof (climb_start_same_plan mb wb) as (Hc2 & _ & _ & _ & Hc5).
  set (mc := mode_of (climb_start mb wb)) in *.
  set (wc := world_of (climb_start mb wb)).
  rewrite run_phase_state, Hc1.
  assert (Hp : same_plan mc (mode_of (run_phase d mc wc))).
  { unfold run_phase. rewrite bind_get, Hc1. apply climb_return_run_same_plan. }
  destruct Hp as (P1 & _ & _ & _ & P5).
  rewrite P1, P5, Hc2, Hc5, Hb3. auto.
Qed.

End TerrainChoice.

Section PathAndQueries.

Context {W : Type} {V : Vehicle W}.

Lemma compute_return_target_700 (m : Mode) (w : W) :
  alt (return_target (rtl_path (mode_of (compute_return_target m w)))) = 700.
Proof.
  unfold compute_return_target. rewrite bind_run. reflexivity.
Qed.

Lemma write_mission_full (l : list Vector3f) :
  List.length l = 14%nat -> write_mission l = map snd mission_script.
Proof.
  intros H.
  do 15 (destruct l as [|? l]; [ discriminate H || reflexivity | ]).
  discriminate H.
Qed.

Lemma forward_const_int : int32_of_float forward_const = 450.
Proof. vm_compute. reflexivity. Qed.

(** X14.  The path that [build_path] leaves.  The return target is at
    700 cm; the descent target sits at the return target's position, also
    at 700 cm, above home; the climb target is 450 units of latitude
    north of the origin at 200 cm, in the return target's frame; and a
    waypoint array of fourteen entries holds exactly the scripted
    mission. *)
Theorem build_path_targets (m : Mode) (w : W) :
  let m' := mode_of (build_path m w) in
  let p := rtl_path m' in
  alt (return_target p) = 700 /\
  descent_target p
    = mkLocation (lat (return_target p)) (lng (return_target p)) 700 ABOVE_HOME /\
  climb_target p
    = mkLocation (wrap_i32 (450 + lat (origin_point p))) (lng (origin_point p)) 200
                 (alt_frame (return_target p)) /\
  (List.length (mission_wp m) = 14%nat -> mission_wp m' = map snd mission_script).
Proof.
  cbv zeta. unfold build_path.
  rewrite !bind_ask, bind_modify, bind_ask.
  rewrite bind_run.
  set (c0 := match change_alt_frame w _ ABOVE_HOME with Some _ => _ | None => _ end).
  set (m1 := mode_of (c0 _ w)). set (w1 := world_of (c0 _ w)).
  assert (Hwp1 : mission_wp m1 = mission_wp m).
  { subst m1 c0. destruct (change_alt_frame w _ ABOVE_HOME); reflexivity. }
  rewrite bind_run.
  pose proof (compute_return_target_700 m1 w1) as H700.
  pose proof (compute_return_target_same_but_return_target m1 w1)
    as (_ & _ & _ & _ & _ & _ & _ & Hwp2 & _).
  set (m2 := mode_of (compute_return_target m1 w1)) in *.
  rewrite !bind_modify, bind_ask.
  unfold modify, mode_of.
  cbn [fst snd rtl_path upd_rtl_path set_rtl_path set_land set_descent_target
       set_climb_target set_mission_wp return_target descent_target climb_target
       origin_point mission_wp].
  rewrite forward_const_int.
  repeat split.
  - exact H700.
  - intros Hlen. rewrite Hwp2, Hwp1. apply write_mission_full, Hlen.
Qed.

(** X15.  [land_run] copies the landed flag into the completion flag on
    every call, before its disarmed-or-landed guard and so also on the
    ground, and changes no other field. *)
Theorem land_run_mirrors_land_complete (d : bool) (m : Mode) (w : W) :
  mode_of (land_run d m w) = set_state_complete (ap_land_complete w) m.
Proof.
  unfold land_run. rewrite bind_ask, bind_modify.
  match goal with
  | |- mode_of (?k ?m1 ?w1) = _ =>
      assert (H : keeps unchanged k)
        by (keeps_all unchanged_refl unchanged_trans
                      ltac:(solve [ reflexivity | assumption ]));
      apply (H m1 w1)
  end.
Qed.

Context {Q : WpNavQueries W}.

(** X16.  [get_wp] answers what the waypoint controller answers in
    every phase but Land, where it answers nothing; and once the Land
    phase is entered no later tick of the flight makes it answer again. *)
Theorem get_wp_silent_while_landing (m : Mode) (w : W) (h : list (bool * W)) :
  (is_landing m = false -> get_wp m w = get_oa_wp_destination w) /\
  (is_landing m = true -> get_wp (fly m h) w = None).
Proof.
  unfold is_landing, get_wp. split.
  - destruct (_state m); solve [ reflexivity | discriminate ].
  - intros H. rewrite fly_land; [ reflexivity | ].
    destruct (_state m); solve [ reflexivity | discriminate ].
Qed.

End PathAndQueries.

(** * The further properties on the bench *)

Import Cases.

(** X5, instance: descending at 1000 cm toward a target at 0 cm. *)
Lemma descent_witness :
  mode_of (descent_run (set_state Frank_FinalDescent fresh) (at_time 0 false))
  = set_state_complete
      (Z.abs (wrap_i32
                (alt (descent_target (rtl_path (set_state Frank_FinalDescent fresh)))
                 - alt (current_loc
                          (world_of (descent_run (set_state Frank_FinalDescent fresh)
                                                 (at_time 0 false)))))) <? 20)
      (set_state Frank_FinalDescent fresh).
Proof.
  apply (descent_completes_within_20cm (set_state Frank_FinalDescent fresh)
           (at_time 0 false)).
  reflexivity.
Defined.

(** X6, instance: no home position, checks not bypassed. *)
Lemma init_failure_witness : init false fresh no_home = (false, fresh, no_home).
Proof.
  apply (init_touches_only_activation_fields false fresh no_home). reflexivity.
Defined.

(** X8, instance: the destination refused over the hill. *)
Lemma refused_return_witness :
  _state (mode_of (run false climb_done_on_terrain refusing)) = Frank_InitialClimb /\
  mission_index (mode_of (run false climb_done_on_terrain refusing)) = 13 /\
  terrain_following_allowed (mode_of (run false climb_done_on_terrain refusing)) = false /\
  rtl_path (mode_of (run false climb_done_on_terrain refusing))
    = rtl_path climb_done_on_terrain /\
  mission_wp (mode_of (run false climb_done_on_terrain refusing))
    = mission_wp climb_done_on_terrain.
Proof.
  apply (refused_return_restarts_the_climb false climb_done_on_terrain refusing);
    reflexivity.
Defined.

(** X9, instance: activated 1000 ms before the clock wraps, the dwell
    ends when the clock reads 180 000. *)
Lemma dwell_clock_wrap_witness :
  mission_completed (mode_of (waypoint_sequencer late_start (at_time 180000 true))) = true.
Proof.
  apply (dwell_survives_clock_wrap late_start (at_time 180000 true) 181000).
  - vm_compute. discriminate.
  - reflexivity.
  - vm_compute. split; [ discriminate | reflexivity ].
  - vm_compute. split; reflexivity.
  - vm_compute. reflexivity.
Defined.

(** X10, instance: at home, slope 3, the target 2000 cm is brought down
    to 1250 cm, 250 cm above the vehicle at 1000 cm. *)
Lemma cone_slope_clamp_witness :
  1000 <= cone_slope_clamp (parameters 1000 1500) 0%Q 1000 2000 <= MAX 1000 2000.
Proof.
  pose proof (@cone_slope_clamp_bounds World vehicle (parameters 1000 1500) 0%Q 1000 2000)
    as A.
  cbv zeta in A. destruct A as [A _].
  - vm_compute. split; discriminate.
  - vm_compute. split; discriminate.
  - vm_compute. reflexivity.
  - vm_compute. reflexivity.
  - apply A. vm_compute. reflexivity.
Defined.

Example cone_slope_clamp_at_home :
  cone_slope_clamp (parameters 1000 1500) 0%Q 1000 2000 = 1250.
Proof. vm_compute. reflexivity. Qed.

(** An altitude that [float] does not hold: 16777217 cm is converted to
    16777216, and the cone returns an altitude below the vehicle. *)
Example cone_slope_clamp_rounds :
  float_of_int 16777217 = inject_Z 16777216 /\
  cone_slope_clamp (parameters 1000 1500) 0%Q 16777217 16777217 = 16777216.
Proof. vm_compute. split; reflexivity. Qed.

(** X17, instance: terrain data at hand, yet the rebuilt path is
    relative to home. *)
Lemma restart_rebuilds_witness :
  _state (mode_of (run false (mode_of (restart_without_terrain climb_done_on_terrain
                                                               (over_hill false)))
                       (over_hill false))) = Frank_InitialClimb /\
  terrain_following_allowed
    (mode_of (run false (mode_of (restart_without_terrain climb_done_on_terrain
                                                          (over_hill false)))
                  (over_hill false))) = false /\
  terrain_used
    (rtl_path
       (mode_of (run false (mode_of (restart_without_terrain climb_done_on_terrain
                                                             (over_hill false)))
                     (over_hill false)))) = false.
Proof.
  apply (restart_rebuilds_without_terrain false climb_done_on_terrain
           (over_hill false) (over_hill false)); reflexivity.
Defined.

(** Without the restart the same vehicle builds a terrain path. *)
Example terrain_path_over_hill :
  terrain_used (rtl_path (mode_of (build_path fresh (over_hill false)))) = true.
Proof. vm_compute. reflexivity. Qed.

(** On the ground a tick of the return phase only spools down. *)
Example idle_tick_on_ground :
  run false (set_state Frank_ReturnHome fresh) on_ground
  = (tt, set_state Frank_ReturnHome fresh, exec make_safe_spool_down on_ground).
Proof. vm_compute. reflexivity. Qed.

(** Loitering since 1000 ms with a loiter time of 5000 ms: not complete
    at 5999 ms, complete at 6000 ms. *)
Example loiter_done_after_5s :
  _state_complete (mode_of (loiterathome_run loitering (at_time 5999 false))) = false /\
  _state_complete (mode_of (loiterathome_run loitering (at_time 6000 false))) = true.
Proof. vm_compute. split; reflexivity. Qed.
